(** * Reward distribution scripts of dfx-synthetics

    A shallow embedding of the two reward-distribution scripts of the
    repository and the properties their specification states about them:

    - [Incentives]: the allocation computation, function [main] of
      [src/scripts/incentives/stipLpIncentives.ts];
    - [BatchSend]: the batch submitter, the script [batchSend.ts] kept as
      the third part of [src/config/roles.ts] (functions [main],
      [readMigrations], [saveMigrations], [readDistributionFile],
      [getValues] and [getBatchSenderCalldata]);
    - [Balances]: the request of the balances the allocation is computed
      from, function [requestBalancesData] of [stipLpIncentives.ts], the
      answer of the subgraph being its argument;
    - [Roles]: the role table, the first part of [src/config/roles.ts].

    Line numbers in the comments are those of these two files.

    Conventions of the embedding.

    - An ethers [BigNumber] is an unbounded signed integer: [Z].  [add],
      [sub], [mul], [abs], [lt] and [gt] are the ones of [Z]; [div]
      truncates towards zero and throws on a zero divisor ([bn_div]).
      Decimal strings holding amounts are identified with the integer
      they spell.
    - A JavaScript object used as a dictionary is a [gmap] when only its
      content matters, and the list of its entries (in the order
      [Object.entries] yields them) when the order is observable.  Loops
      over the entries of a [gmap] visit them in the order of
      [map_to_list]; what such a loop computes here (sums, and maps built
      key by key) does not depend on the order.
    - A [throw], or a rejected promise that is awaited, is an [Err]
      result; console output is not modelled, except where computing the
      logged value can throw. *)

From stdpp Require Import gmap strings list fin_maps sorting pretty.
From Stdlib Require Import ZArith Lia.

#[local] Open Scope Z_scope.

(** ** Results of fallible code *)

Inductive result (E A : Type) : Type :=
| Ok (a : A)
| Err (e : E).
Arguments Ok {E A} a.
Arguments Err {E A} e.

Definition isErr {E A} (r : result E A) : bool :=
  match r with Ok _ => false | Err _ => true end.

(** ** BigNumber helpers *)

(** [BigNumber.div]: truncating division, throwing (here [None]) on a
    zero divisor. *)
Definition bn_div (a b : Z) : option Z :=
  if decide (b = 0) then None else Some (Z.quot a b).

(** [list.reduce((acc, x) => acc.add(x), bigNumberify(0))]. *)
Definition bn_sum (l : list Z) : Z := foldl Z.add 0 l.

(** Modelled from the spec: [expandDecimals] of [utils/math], a module
    outside the files modelled here.  The spec reads [expandDecimals(1, 18)]
    as "1 unit at 18-decimal fixed-point" and [expandDecimals(1, 17)] as
    0.1 token at 18 decimals, that is [n * 10 ^ decimals]. *)
Definition expandDecimals (n decimals : Z) : Z := n * 10 ^ decimals.

(** * The allocation computation: [stipLpIncentives.ts] *)

Module Incentives.

(** The script throws plain [Error]s; each constructor stands for one
    [throw] site of [main], named after the error it reports. *)
Inductive Error : Type :=
| NoIncentivesError
    (* "There is no incentives for week starting on ..." *)
| NoBalancesDataError (marketAddress : string)
    (* "No balances data for market ..." *)
| ReconciliationError (marketAddress : string) (marketTokensSupply userBalancesSum : Z)
    (* "Sum of user balances and market tokens supply don't match." *)
| DivisionByZeroError
    (* thrown by [BigNumber.div] on a zero [marketTokensSupply] (line 187)
       or a zero [totalRewards] (line 222) *)
| OverAllocationError (userTotalRewards totalRewards : Z).
    (* "Sum of user rewards exceeds total allocated rewards." *)

(** One value of the object [requestBalancesData] returns. *)
Record MarketData : Type := {
  marketTokensSupply : Z;
  userBalances : gmap string Z;
}.

(** [allocationData.lp].  [rewardsPerMarket] is kept as its entry list:
    the markets are visited in the order of [Object.keys]. *)
Record LpAllocationData : Type := {
  isActive : bool;
  rewardsPerMarket : list (string * Z);
  totalRewards : Z;
}.

(** The sum of the values of an object: [Object.values(o).reduce(...)]. *)
Definition sumValues (o : gmap string Z) : Z := bn_sum (map_to_list o).*2.

(** [userBalancesSum] of line 160. *)
Definition userBalancesSum (balances : gmap string Z) : Z := sumValues balances.

(** The tolerance test of lines 166-171: [true] when the run must throw. *)
Definition balancesMismatch (sum supply : Z) : bool :=
  bool_decide (Z.abs (sum - supply) > expandDecimals 1 18).

(** [userBalance.mul(marketRewards).div(marketTokensSupply)]. *)
Definition userRewardsOf (userBalance marketRewards supply : Z) : option Z :=
  bn_div (userBalance * marketRewards) supply.

(** The rewards one market computes, one per entry of [userBalances], for
    a non-zero supply. *)
Definition marketUserRewards (data : MarketData) (marketRewards : Z) : list Z :=
  (λ entry : string * Z, Z.quot (entry.2 * marketRewards) (marketTokensSupply data))
    <$> map_to_list (userBalances data).

(** Lines 183-198: the entry of [userAccount] is created at zero when
    absent, then increased. *)
Definition creditUser (usersDistributionResult : gmap string Z)
    (userAccount : string) (userRewards : Z) : gmap string Z :=
  <[userAccount := default 0 (usersDistributionResult !! userAccount) + userRewards]>
    usersDistributionResult.

(** The inner loop over [Object.entries(userBalances)]. *)
Fixpoint distributeMarket (entries : list (string * Z)) (marketRewards supply : Z)
    (usersDistributionResult : gmap string Z) : result Error (gmap string Z) :=
  match entries with
  | [] => Ok usersDistributionResult
  | (userAccount, userBalance) :: rest =>
      match userRewardsOf userBalance marketRewards supply with
      | None => Err DivisionByZeroError
      | Some userRewards =>
          distributeMarket rest marketRewards supply
            (creditUser usersDistributionResult userAccount userRewards)
      end
  end.

(** The body of the loop over the markets (lines 155-200). *)
Definition processMarket (balancesData : gmap string MarketData)
    (marketAddress : string) (marketRewards : Z)
    (usersDistributionResult : gmap string Z) : result Error (gmap string Z) :=
  match balancesData !! marketAddress with
  | None => Err (NoBalancesDataError marketAddress)
  | Some data =>
      let sum := userBalancesSum (userBalances data) in
      if balancesMismatch sum (marketTokensSupply data)
      then Err (ReconciliationError marketAddress (marketTokensSupply data) sum)
      else distributeMarket (map_to_list (userBalances data)) marketRewards
             (marketTokensSupply data) usersDistributionResult
  end.

(** The loop over [Object.keys(lpAllocationData.rewardsPerMarket)]; each
    key is paired with the value [rewardsPerMarket[marketAddress]]. *)
Fixpoint processMarkets (balancesData : gmap string MarketData)
    (markets : list (string * Z)) (usersDistributionResult : gmap string Z)
    : result Error (gmap string Z) :=
  match markets with
  | [] => Ok usersDistributionResult
  | (marketAddress, marketRewards) :: rest =>
      match processMarket balancesData marketAddress marketRewards usersDistributionResult with
      | Err e => Err e
      | Ok usersDistributionResult' => processMarkets balancesData rest usersDistributionResult'
      end
  end.

Definition MIN_REWARD_THRESHOLD : Z := expandDecimals 1 17.

(** The variables the filtering loop (lines 203-226) updates. *)
Record FilterState : Type := {
  userTotalRewards : Z;
  jsonResult : gmap string Z;
  usersBelowThreshold : nat;
  eligibleUsers : nat;
}.

Definition filterInit : FilterState :=
  {| userTotalRewards := 0; jsonResult := ∅; usersBelowThreshold := 0%nat;
     eligibleUsers := 0%nat |}.

(** One iteration: the reward is added to [userTotalRewards] first, and
    only then compared with the threshold.  For an account that stays, the
    logged share [userRewards.mul(10000).div(lpAllocationData.totalRewards)]
    is computed, and [div] throws on a zero total. *)
Definition filterStep (totalRewards : Z) (st : FilterState) (entry : string * Z)
    : result Error FilterState :=
  let '(userAccount, userRewards) := entry in
  let total := userTotalRewards st + userRewards in
  if bool_decide (userRewards < MIN_REWARD_THRESHOLD)
  then Ok {| userTotalRewards := total; jsonResult := jsonResult st;
             usersBelowThreshold := S (usersBelowThreshold st);
             eligibleUsers := eligibleUsers st |}
  else
    match bn_div (userRewards * 10000) totalRewards with
    | None => Err DivisionByZeroError
    | Some _ =>
        Ok {| userTotalRewards := total;
              jsonResult := <[userAccount := userRewards]> (jsonResult st);
              usersBelowThreshold := usersBelowThreshold st;
              eligibleUsers := S (eligibleUsers st) |}
    end.

Arguments filterStep : simpl never.

(** The loop of lines 208-226 over the sorted entries. *)
Fixpoint filterLoop (totalRewards : Z) (st : FilterState) (entries : list (string * Z))
    : result Error FilterState :=
  match entries with
  | [] => Ok st
  | entry :: rest =>
      match filterStep totalRewards st entry with
      | Err e => Err e
      | Ok st' => filterLoop totalRewards st' rest
      end
  end.

(** [entries.sort((a, b) => a[1].lt(b[1]) ? -1 : 1)]: a comparison sort
    putting [a] first when its reward is the lower one. *)
Definition rewardBefore (a b : string * Z) : Prop := a.2 < b.2.

#[local] Instance rewardBefore_dec : RelDecision rewardBefore :=
  λ a b, Z_lt_dec a.2 b.2.

Definition sortEntries (entries : list (string * Z)) : list (string * Z) :=
  merge_sort rewardBefore entries.

Definition filterRewards (totalRewards : Z) (usersDistributionResult : gmap string Z)
    : result Error FilterState :=
  filterLoop totalRewards filterInit (sortEntries (map_to_list usersDistributionResult)).

(** What [saveDistribution] is handed. *)
Record Distribution : Type := {
  token : string;
  amounts : gmap string Z;
  distributionTypeId : Z;
}.

Section Main.

(** Helpers of [./helpers] and of the hardhat environment, defined
    outside the files modelled here and taken as parameters:
    [overrideReceivers] rewrites the result in place, [arbToken] is
    [(await hre.gmx.getTokens()).ARB.address]. *)
Context (overrideReceivers : gmap string Z → gmap string Z).
Context (arbToken : string) (STIP_LP_DISTRIBUTION_TYPE_ID : Z).

(** [main], from the point where the two requests have been answered.
    The second component is the file [saveDistribution] writes, if any. *)
Definition main (balancesData : gmap string MarketData)
    (lpAllocationData : LpAllocationData) : result Error () * option Distribution :=
  if negb (isActive lpAllocationData) then (Err NoIncentivesError, None)
  else
    match processMarkets balancesData (rewardsPerMarket lpAllocationData) ∅ with
    | Err e => (Err e, None)
    | Ok usersDistributionResult =>
        match filterRewards (totalRewards lpAllocationData) usersDistributionResult with
        | Err e => (Err e, None)
        | Ok st =>
            if bool_decide (userTotalRewards st > totalRewards lpAllocationData)
            then (Err (OverAllocationError (userTotalRewards st)
                         (totalRewards lpAllocationData)), None)
            else (Ok (),
                  Some {| token := arbToken;
                          amounts := overrideReceivers (jsonResult st);
                          distributionTypeId := STIP_LP_DISTRIBUTION_TYPE_ID |})
        end
    end.

End Main.

End Incentives.

(** * The batch submitter: [batchSend.ts] *)

Module BatchSend.

(** Each constructor stands for one [throw] site, or for a rejected
    promise of the chain, named after the error the run reports. *)
Inductive Error : Type :=
| InputValidationError (message : string)
    (* the [throw]s of [readDistributionFile] *)
| AlreadySentError (id : Z)
    (* "Distribution ... was already sent. ..." *)
| KeyRequiredError
    (* "BATCH_SENDER_KEY is required" *)
| UnsupportedNetworkError (network : string)
    (* "unsupported network ..." *)
| DuplicateRecipientError (recipient : string) (from to : nat)
    (* "Duplicated recipient ... batch from-to" *)
| ApprovalError
    (* [approve] or its [wait] rejected *)
| SubmissionError (from to : nat).
    (* [sendAndEmit], its [wait] or its [callStatic] rejected *)

(** [process.env] and [hre.network.name]. *)
Record Env : Type := {
  WRITE : option string;
  BATCH_SENDER_KEY : option string;
  SKIP_MIGRATION_VALIDATION : option string;
  DRY_RUN : option string;
  FILENAME : option string;
  networkName : string;
}.

(** Truthiness of an environment variable: set, and not the empty string. *)
Definition truthy (v : option string) : bool :=
  match v with
  | Some s => negb (String.eqb s "")
  | None => false
  end.

(** [const shouldSendTxn = process.env.WRITE === "true"]. *)
Definition shouldSendTxn (env : Env) : bool :=
  bool_decide (WRITE env = Some "true").

(** The parsed distribution file.  A missing [token] reads as the empty
    string and a missing number as [0] (all falsy); [amounts] is [None]
    when the field is missing or not an object, and otherwise the entries
    of the object in the order [Object.entries] yields them.  The keys of
    an object are pairwise distinct; statements that depend on it take
    [NoDup] of the keys as a hypothesis. *)
Record DistributionData : Type := {
  token : string;
  amounts : option (list (string * Z));
  distributionTypeId : Z;
  id : Z;
}.

(** [type Migrations = Record<string, number>]: the key [data.id] is a
    number, coerced to its decimal spelling; the ledger is keyed here by
    the number itself. *)
Abbreviation Migrations := (gmap Z Z).

(** The calls of the run on the chain, each with the chain state it was
    made in. *)
Inductive Event (Chain : Type) : Type :=
| EvAllowance (c : Chain) (token : string)
| EvApprove (c : Chain) (token : string) (amount : Z)
| EvSendAndEmit (c : Chain) (from to : nat) (recipients : list string) (amounts : list Z)
| EvCallStatic (c : Chain) (from to : nat) (recipients : list string) (amounts : list Z).
Arguments EvAllowance {Chain} c token.
Arguments EvApprove {Chain} c token amount.
Arguments EvSendAndEmit {Chain} c from to recipients amounts.
Arguments EvCallStatic {Chain} c from to recipients amounts.

(** The contracts the script talks to, for the signer and the batch
    sender of the run: [tokenContract.allowance], [tokenContract.approve]
    followed by [tx.wait()], [batchSender.sendAndEmit] followed by
    [tx.wait()], and [batchSender.callStatic.sendAndEmit].  [None] and
    [false] stand for a rejected promise.  The reading of the allowance
    is taken to answer, and the key, when set, to be well formed. *)
Class BatchSenderChain (Chain : Type) : Type := {
  allowance : string → Chain → Z;
  approve : string → Z → Chain → option Chain;
  sendAndEmit : string → list string → list Z → Z → Chain → option Chain;
  callStatic_sendAndEmit : string → list string → list Z → Z → Chain → bool;
}.

(** Everything outside the process: the files, the clock and the chain,
    with the calls made on the chain so far.  [clock] is what [Date.now()]
    answers, in milliseconds, at the one place the run asks (line 270). *)
Record World (Chain : Type) : Type := {
  distributionFile : string → option DistributionData;
  migrationsFile : option Migrations;
  clock : Z;
  chain : Chain;
  log : list (Event Chain);
}.
Arguments distributionFile {Chain} w path.
Arguments migrationsFile {Chain} w.
Arguments clock {Chain} w.
Arguments chain {Chain} w.
Arguments log {Chain} w.

Definition logEvent {Chain} (ev : Event Chain) (w : World Chain) : World Chain :=
  {| distributionFile := distributionFile w; migrationsFile := migrationsFile w;
     clock := clock w; chain := chain w; log := log w ++ [ev] |}.

Definition setChain {Chain} (c : Chain) (w : World Chain) : World Chain :=
  {| distributionFile := distributionFile w; migrationsFile := migrationsFile w;
     clock := clock w; chain := c; log := log w |}.

(** [saveMigrations]: the whole object replaces the file. *)
Definition saveMigrations {Chain} (migrations : Migrations) (w : World Chain) : World Chain :=
  {| distributionFile := distributionFile w; migrationsFile := Some migrations;
     clock := clock w; chain := chain w; log := log w |}.

(** [readMigrations]: a missing file reads as the empty object. *)
Definition readMigrations {Chain} (w : World Chain) : Migrations :=
  match migrationsFile w with
  | None => ∅
  | Some migrations => migrations
  end.

(** Truthiness of [migrations[data.id]]: an entry, and not [0]. *)
Definition alreadySent (migrations : Migrations) (id : Z) : bool :=
  match migrations !! id with
  | Some timestamp => negb (timestamp =? 0)
  | None => false
  end.

(** The batch an event submits or simulates, if it is one of the two
    batch calls. *)
Definition batchOf {Chain} (ev : Event Chain) : option (nat * nat * list string * list Z) :=
  match ev with
  | EvSendAndEmit _ from to recipients amounts => Some (from, to, recipients, amounts)
  | EvCallStatic _ from to recipients amounts => Some (from, to, recipients, amounts)
  | _ => None
  end.

Definition isBatchEvent {Chain} (ev : Event Chain) : bool :=
  match batchOf ev with Some _ => true | None => false end.

(** A transaction really sent for a batch (not a simulation). *)
Definition isBatchTransaction {Chain} (ev : Event Chain) : bool :=
  match ev with EvSendAndEmit _ _ _ _ _ => true | _ => false end.

(** [getValues]. *)
Definition getValues (env : Env) : result Error string :=
  if String.eqb (networkName env) "arbitrum"
  then Ok "0x5384E6cAd96B2877B5B3337A277577053BD1941D"%string
  else Err (UnsupportedNetworkError (networkName env)).

(** lodash [range(start, end, step)] for natural arguments:
    [ceil((end - start) / (step || 1))] values, [step] apart. *)
Definition range (start stop step : nat) : list nat :=
  let divisor := match step with O => 1%nat | _ => step end in
  (λ i, (start + i * step)%nat) <$> seq 0 ((stop - start + divisor - 1) / divisor)%nat.

(** [list.slice(from, to)] for [from] and [to] natural. *)
Definition slice {A} (from to : nat) (l : list A) : list A :=
  take (to - from) (drop from l).

(** The batches [main] cuts for the loop variable [from]: the bounds and
    the two slices. *)
Definition batchAt (batchSize : nat) (recipients : list string) (amounts : list Z)
    (from : nat) : nat * nat * list string * list Z :=
  let to := Nat.min (from + batchSize) (length amounts) in
  (from, to, slice from to recipients, slice from to amounts).

Definition mainBatches (batchSize : nat) (recipients : list string) (amounts : list Z)
    : list (nat * nat * list string * list Z) :=
  batchAt batchSize recipients amounts <$> range 0 (length amounts) batchSize.

(** The loop over [batchRecipients.entries()] (lines 241-252).
    [seenRecipients] is only ever queried. *)
Fixpoint checkRecipients (seenRecipients : gset string) (from to : nat)
    (batchRecipients : list string) : result Error () :=
  match batchRecipients with
  | [] => Ok ()
  | recipient :: rest =>
      if bool_decide (recipient ∈ seenRecipients)
      then Err (DuplicateRecipientError recipient from to)
      else checkRecipients seenRecipients from to rest
  end.

Section Main.

Context {Chain : Type} `{!BatchSenderChain Chain}.

(** [getDistributionTypeName] of [./helpers], defined outside the files
    modelled here and taken as a parameter. *)
Context (getDistributionTypeName : Z → option string).

(** Whether the chain accepted the call an event records. *)
Definition confirmed (data : DistributionData) (ev : Event Chain) : bool :=
  match ev with
  | EvAllowance _ _ => true
  | EvApprove c token amount =>
      match approve token amount c with Some _ => true | None => false end
  | EvSendAndEmit c _ _ recipients amounts =>
      match sendAndEmit (token data) recipients amounts (distributionTypeId data) c with
      | Some _ => true
      | None => false
      end
  | EvCallStatic c _ _ recipients amounts =>
      callStatic_sendAndEmit (token data) recipients amounts (distributionTypeId data) c
  end.

(** For a batch call: the allowance, in the chain state the call is made
    in, covers the amounts from the start of the batch on. *)
Definition allowanceCovers (data : DistributionData) (amounts : list Z)
    (ev : Event Chain) : Prop :=
  match ev with
  | EvSendAndEmit c from _ _ _ | EvCallStatic c from _ _ _ =>
      bn_sum (drop from amounts) ≤ allowance (token data) c
  | _ => True
  end.

(** [readDistributionFile]; the resolution of [FILENAME] to a path is left
    to [distributionFile]. *)
Definition readDistributionFile (env : Env) (w : World Chain)
    : result Error (DistributionData * list (string * Z) * string) :=
  if negb (truthy (FILENAME env)) then Err (InputValidationError "FILENAME is required")
  else
    match distributionFile w (default ""%string (FILENAME env)) with
    | None => Err (InputValidationError "file cannot be read")
    | Some data =>
        if String.eqb (token data) "" then
          Err (InputValidationError "Invalid file format. It should contain `token` string")
        else
          match amounts data with
          | None =>
              Err (InputValidationError "Invalid file format. It should contain `amounts` object")
          | Some entries =>
              if distributionTypeId data =? 0 then
                Err (InputValidationError
                       "Invalid file format. It should contain `distributionTypeId` number")
              else
                match getDistributionTypeName (distributionTypeId data) with
                | None => Err (InputValidationError "Unknown distribution type id")
                | Some distributionTypeName =>
                    if String.eqb distributionTypeName "" then
                      Err (InputValidationError "Unknown distribution type id")
                    else if id data =? 0 then
                      Err (InputValidationError
                             "Invalid file format. It should contain `id` string")
                    else Ok (data, entries, distributionTypeName)
                end
          end
    end.

(** The loop over [range(0, amounts.length, batchSize)] (lines 234-268),
    [froms] being the values of [from] still to visit. *)
Fixpoint sendBatches (env : Env) (data : DistributionData)
    (recipients : list string) (amounts : list Z) (batchSize : nat)
    (seenRecipients : gset string) (froms : list nat) (w : World Chain)
    : World Chain * result Error () :=
  match froms with
  | [] => (w, Ok ())
  | from :: rest =>
      let '(_, to, batchRecipients, batchAmounts) :=
        batchAt batchSize recipients amounts from in
      match checkRecipients seenRecipients from to batchRecipients with
      | Err e => (w, Err e)
      | Ok _ =>
          if truthy (DRY_RUN env) then
            let w1 := logEvent (EvCallStatic (chain w) from to batchRecipients batchAmounts) w in
            if callStatic_sendAndEmit (token data) batchRecipients batchAmounts
                 (distributionTypeId data) (chain w)
            then sendBatches env data recipients amounts batchSize seenRecipients rest w1
            else (w1, Err (SubmissionError from to))
          else
            let w1 := logEvent (EvSendAndEmit (chain w) from to batchRecipients batchAmounts) w in
            match sendAndEmit (token data) batchRecipients batchAmounts
                    (distributionTypeId data) (chain w) with
            | None => (w1, Err (SubmissionError from to))
            | Some c =>
                sendBatches env data recipients amounts batchSize seenRecipients rest
                  (setChain c w1)
            end
      end
  end.

(** Lines 221-230: the allowance is read and, when it is lower than the
    total, an approval of the total is sent and awaited. *)
Definition ensureAllowance (data : DistributionData) (totalAmount : Z) (w : World Chain)
    : World Chain * result Error () :=
  let w1 := logEvent (EvAllowance (chain w) (token data)) w in
  if bool_decide (allowance (token data) (chain w) < totalAmount) then
    let w2 := logEvent (EvApprove (chain w) (token data) totalAmount) w1 in
    match approve (token data) totalAmount (chain w) with
    | None => (w2, Err ApprovalError)
    | Some c => (setChain c w2, Ok ())
    end
  else (w1, Ok ()).

(** The branch [if (shouldSendTxn)] of lines 207-271. *)
Definition sendDistribution (env : Env) (data : DistributionData)
    (migrations : Migrations) (recipients : list string) (amounts : list Z)
    (w : World Chain) : World Chain * result Error () :=
  let batchSize := 150%nat in
  let totalAmount := bn_sum amounts in
  match ensureAllowance data totalAmount w with
  | (w1, Err e) => (w1, Err e)
  | (w1, Ok _) =>
      let seenRecipients : gset string := ∅ in
      match sendBatches env data recipients amounts batchSize seenRecipients
              (range 0 (length amounts) batchSize) w1 with
      | (w2, Err e) => (w2, Err e)
      | (w2, Ok _) =>
          (saveMigrations (<[id data := clock w2 `div` 1000]> migrations) w2, Ok ())
      end
  end.

(** [main]. *)
Definition main (env : Env) (w : World Chain) : World Chain * result Error () :=
  match readDistributionFile env w with
  | Err e => (w, Err e)
  | Ok (data, entries, distributionTypeName) =>
      let migrations := readMigrations w in
      if alreadySent migrations (id data) && negb (truthy (SKIP_MIGRATION_VALIDATION env))
      then (w, Err (AlreadySentError (id data)))
      else if shouldSendTxn env && negb (truthy (BATCH_SENDER_KEY env))
      then (w, Err KeyRequiredError)
      else
        match getValues env with
        | Err e => (w, Err e)
        | Ok batchSenderAddress =>
            let amounts := entries.*2 in
            let recipients := entries.*1 in
            if shouldSendTxn env
            then sendDistribution env data migrations recipients amounts w
            else (w, Ok ())
        end
  end.

(** [batchSenderInterface.encodeFunctionData("sendAndEmit", ...)]. *)
Context (encodeSendAndEmit : string → list string → list Z → Z → string).

(** [getBatchSenderCalldata]; the key [`${from}-${Math.min(to, length) - 1}`]
    is kept as the pair of its two numbers. *)
Definition getBatchSenderCalldata (tokenAddress : string) (recipients : list string)
    (amounts : list Z) (typeId : Z) (batchSize : nat) : gmap (nat * Z) string :=
  foldl (λ batchSenderCalldata from,
           let to := (from + batchSize)%nat in
           let amountsBatch := slice from to amounts in
           let recipientsBatch := slice from to recipients in
           let calldata := encodeSendAndEmit tokenAddress recipientsBatch amountsBatch typeId in
           <[(from, Z.of_nat (Nat.min to (length amounts)) - 1) := calldata]> batchSenderCalldata)
        ∅ (range 0 (length amounts) batchSize).

End Main.

End BatchSend.

(** * The balances request: [requestBalancesData] of [stipLpIncentives.ts] *)

Module Balances.

(** The two [throw]s of the function, and the one [ethers.utils.getAddress]
    raises on a string that is not an address. *)
Inductive Error : Type :=
| PaginationError (field : string)
    (* "should paginate liquidityProviderIncentivesStats",
       "should paginate userMarketInfos" *)
| InvalidAddressError (address : string).

(** The four lists of the answer of the subgraph.  The two records with an
    account and a market keep the field names of the source under a prefix.
    [weightedAverageMarketTokensSupply] is a decimal string, never empty,
    hence truthy even when it spells 0. *)
Record LpStat : Type := {
  lpAccount : string;
  lpMarketAddress : string;
  weightedAverageMarketTokensBalance : Z;
}.

Record MarketStat : Type := {
  statMarketAddress : string;
  weightedAverageMarketTokensSupply : Z;
}.

Record UserMarketInfo : Type := {
  infoAccount : string;
  infoMarketAddress : string;
  marketTokensBalance : Z;
}.

Record MarketInfo : Type := {
  marketToken : string;
  marketTokensSupply : Z;
}.

Record Response : Type := {
  liquidityProviderIncentivesStats : list LpStat;
  marketIncentivesStats : list MarketStat;
  userMarketInfos : list UserMarketInfo;
  marketInfos : list MarketInfo;
}.

Section Request.

(** [ethers.utils.getAddress]: the one spelling of an address, [None] when
    it throws. *)
Context (getAddress : string → option string).

(** Lines 88-94: the weighted balances of the market, a later stat of an
    account replacing an earlier one. *)
Fixpoint collectStats (market : string) (stats : list LpStat)
    (userBalances : gmap string Z) : result Error (gmap string Z) :=
  match stats with
  | [] => Ok userBalances
  | lpStat :: rest =>
      if String.eqb (lpMarketAddress lpStat) market then
        match getAddress (lpAccount lpStat) with
        | None => Err (InvalidAddressError (lpAccount lpStat))
        | Some account =>
            collectStats market rest
              (<[account := weightedAverageMarketTokensBalance lpStat]> userBalances)
        end
      else collectStats market rest userBalances
  end.

(** Lines 95-106: the current balances, for the accounts still absent. *)
Fixpoint collectInfos (market : string) (infos : list UserMarketInfo)
    (userBalances : gmap string Z) : result Error (gmap string Z) :=
  match infos with
  | [] => Ok userBalances
  | info :: rest =>
      if negb (String.eqb (infoMarketAddress info) market)
      then collectInfos market rest userBalances
      else
        match getAddress (infoAccount info) with
        | None => Err (InvalidAddressError (infoAccount info))
        | Some account =>
            match userBalances !! account with
            | Some _ => collectInfos market rest userBalances
            | None =>
                if marketTokensBalance info =? 0
                then collectInfos market rest userBalances
                else collectInfos market rest
                       (<[account := marketTokensBalance info]> userBalances)
            end
        end
  end.

(** [marketIncentivesStats.find(...)?.weightedAverageMarketTokensSupply
    || marketInfo.marketTokensSupply]. *)
Definition supplyOf (stats : list MarketStat) (marketInfo : MarketInfo) : Z :=
  match List.find (λ marketStat, String.eqb (statMarketAddress marketStat)
                                   (marketToken marketInfo)) stats with
  | Some marketStat => weightedAverageMarketTokensSupply marketStat
  | None => marketTokensSupply marketInfo
  end.

(** The callback of [data.marketInfos.map] (lines 86-119). *)
Definition marketEntry (response : Response) (marketInfo : MarketInfo)
    : result Error (string * Incentives.MarketData) :=
  match collectStats (marketToken marketInfo)
          (liquidityProviderIncentivesStats response) ∅ with
  | Err e => Err e
  | Ok userBalances =>
      match collectInfos (marketToken marketInfo) (userMarketInfos response)
              userBalances with
      | Err e => Err e
      | Ok userBalances' =>
          match getAddress (marketToken marketInfo) with
          | None => Err (InvalidAddressError (marketToken marketInfo))
          | Some address =>
              Ok (address,
                  {| Incentives.marketTokensSupply :=
                       supplyOf (marketIncentivesStats response) marketInfo;
                     Incentives.userBalances := userBalances' |})
          end
      end
  end.

(** [data.marketInfos.map(...)]. *)
Fixpoint marketEntries (response : Response) (infos : list MarketInfo)
    : result Error (list (string * Incentives.MarketData)) :=
  match infos with
  | [] => Ok []
  | marketInfo :: rest =>
      match marketEntry response marketInfo with
      | Err e => Err e
      | Ok entry =>
          match marketEntries response rest with
          | Err e => Err e
          | Ok entries => Ok (entry :: entries)
          end
      end
  end.

(** [Object.fromEntries]: a later entry replaces an earlier one under the
    same key. *)
Definition fromEntries (entries : list (string * Incentives.MarketData))
    : gmap string Incentives.MarketData :=
  foldl (λ o entry, <[entry.1 := entry.2]> o) ∅ entries.

(** [requestBalancesData], from the answer of the subgraph on. *)
Definition requestBalancesData (response : Response)
    : result Error (gmap string Incentives.MarketData) :=
  if Z.of_nat (length (liquidityProviderIncentivesStats response)) =? 10000
  then Err (PaginationError "liquidityProviderIncentivesStats")
  else if Z.of_nat (length (userMarketInfos response)) =? 10000
  then Err (PaginationError "userMarketInfos")
  else
    match marketEntries response (marketInfos response) with
    | Err e => Err e
    | Ok entries => Ok (fromEntries entries)
    end.

End Request.

End Balances.

(** * The role table: the first part of [src/config/roles.ts] *)

Module Roles.

(** One element of [RolesConfig]. *)
Record RoleEntry : Type := {
  account : string;
  roles : list string;
}.

Definition getMainnetRoles (multisigAccount : string) : list RoleEntry :=
  [ {| account := "0xe7bfff2ab721264887230037940490351700a068";
       roles := ["CONTROLLER"; "MARKET_KEEPER"] |};
    {| account := "0x43ce1d475e06c65dd879f4ec644b8e0e10ff2b6d";
       roles := ["FEE_KEEPER"] |};
    {| account := "0xE47b36382DC50b90bCF6176Ddb159C4b9333A7AB";
       roles := ["CONFIG_KEEPER"] |};
    {| account := "0xE97e935d4F5a533E61BaaF0a3CC85DB33ac71636";
       roles := ["CONFIG_KEEPER"; "MARKET_KEEPER"] |};
    {| account := "0x35ea3066F90Db13e737BBd41f1ED7B4bfF8323b3";
       roles := ["TIMELOCK_ADMIN"] |};
    {| account := multisigAccount;
       roles := ["CONFIG_KEEPER"; "TIMELOCK_ADMIN"; "TIMELOCK_MULTISIG"] |};
    {| account := "0xE47b36382DC50b90bCF6176Ddb159C4b9333A7AB";
       roles := ["ORDER_KEEPER"; "ADL_KEEPER"; "LIQUIDATION_KEEPER"; "FROZEN_ORDER_KEEPER"] |};
    {| account := "0xC539cB358a58aC67185BaAD4d5E3f7fCfc903700";
       roles := ["ORDER_KEEPER"; "ADL_KEEPER"; "LIQUIDATION_KEEPER"; "FROZEN_ORDER_KEEPER"] |};
    {| account := "0xf1e1B2F4796d984CCb8485d43db0c64B83C1FA6d";
       roles := ["ORDER_KEEPER"; "ADL_KEEPER"; "LIQUIDATION_KEEPER"; "FROZEN_ORDER_KEEPER"] |} ].

Definition testnetRoles : list RoleEntry :=
  [ {| account := "0xC84f3398eDf6336E1Ef55b50Ca3F9f9f96B8b504";
       roles := ["CONTROLLER"; "ORDER_KEEPER"; "ADL_KEEPER"; "LIQUIDATION_KEEPER";
                 "MARKET_KEEPER"; "FROZEN_ORDER_KEEPER"] |};
    {| account := "0xFb11f15f206bdA02c224EDC744b0E50E46137046";
       roles := ["CONTROLLER"; "ORDER_KEEPER"; "ADL_KEEPER"; "LIQUIDATION_KEEPER";
                 "MARKET_KEEPER"; "FROZEN_ORDER_KEEPER"] |} ].

(** The object [config], as its entries. *)
Definition config (deployer : string) : list (string * list RoleEntry) :=
  [ ("hardhat"%string,
     [ {| account := deployer;
          roles := ["CONTROLLER"; "ORDER_KEEPER"; "ADL_KEEPER"; "LIQUIDATION_KEEPER";
                    "MARKET_KEEPER"; "FROZEN_ORDER_KEEPER"] |} ]);
    ("arbitrum"%string, getMainnetRoles "0xe3764a841e4a5EDa05422e1aC7FaF1266DE079e7");
    ("avalanche"%string, getMainnetRoles "0xc40CdB401468419D701Bc87BA7bb9C67DFf5b110");
    ("arbitrumGoerli"%string, testnetRoles);
    ("avalancheFuji"%string, testnetRoles) ].

(** The exported function: [config[hre.network.name]], [None] standing
    for [undefined]; network names are taken not to be names of inherited
    properties of objects. *)
Definition rolesConfig (deployer networkName : string) : option (list RoleEntry) :=
  snd <$> List.find (λ entry, String.eqb entry.1 networkName) (config deployer).

End Roles.

(** * Sample inputs *)

Module IncentivesSamples.
Import Incentives.

Definition marketM1 : string := "0x47c031236e19d024b42f8AE6780E44A573170703".
Definition marketM2 : string := "0x70d95587d40A2caf56bd97485aB3Eec10Bee6336".
Definition accountA : string := "0x1111111111111111111111111111111111111111".
Definition accountB : string := "0x2222222222222222222222222222222222222222".
Definition ARB : string := "0x912CE59144191C1204E64559FE8253a0e49E6548".

(** One market whose two balances exceed the supply by exactly the
    tolerance; the rewards of [accountB] fall below the threshold. *)
Definition overSubscribed : MarketData :=
  {| marketTokensSupply := 10 * 10 ^ 18;
     userBalances := {[ accountA := 10 * 10 ^ 18; accountB := 1 * 10 ^ 18 ]} |}.

Definition overSubscribedBalances : gmap string MarketData :=
  {[ marketM1 := overSubscribed ]}.

Definition overSubscribedAllocation : LpAllocationData :=
  {| isActive := true;
     rewardsPerMarket := [(marketM1, 5 * 10 ^ 17)];
     totalRewards := 5 * 10 ^ 17 |}.

(** Two markets: the balances of the first exceed its supply by the
    tolerance, those of the second fall short of it by the tolerance. *)
Definition market1 : MarketData :=
  {| marketTokensSupply := 1 * 10 ^ 18;
     userBalances := {[ accountA := 2 * 10 ^ 18 ]} |}.

Definition market2 : MarketData :=
  {| marketTokensSupply := 4 * 10 ^ 18;
     userBalances := {[ accountB := 3 * 10 ^ 18 ]} |}.

Definition twoMarketsBalances : gmap string MarketData :=
  {[ marketM1 := market1; marketM2 := market2 ]}.

Definition twoMarketsAllocation : LpAllocationData :=
  {| isActive := true;
     rewardsPerMarket := [(marketM1, 1 * 10 ^ 18); (marketM2, 4 * 10 ^ 18)];
     totalRewards := 5 * 10 ^ 18 |}.

(** One market whose balances are three units away from its supply. *)
Definition diverging : MarketData :=
  {| marketTokensSupply := 1 * 10 ^ 18;
     userBalances := {[ accountA := 4 * 10 ^ 18 ]} |}.

Definition divergingBalances : gmap string MarketData :=
  {[ marketM1 := diverging ]}.

Definition divergingAllocation : LpAllocationData :=
  {| isActive := true;
     rewardsPerMarket := [(marketM1, 1 * 10 ^ 18)];
     totalRewards := 1 * 10 ^ 18 |}.

(** One market shared three to one, within its supply. *)
Definition balanced : MarketData :=
  {| marketTokensSupply := 4 * 10 ^ 18;
     userBalances := {[ accountA := 3 * 10 ^ 18; accountB := 1 * 10 ^ 18 ]} |}.

Definition balancedBalances : gmap string MarketData :=
  {[ marketM1 := balanced ]}.

End IncentivesSamples.

Module BatchSendSamples.
Import BatchSend.

Definition ARB : string := "0x912CE59144191C1204E64559FE8253a0e49E6548".

(** A chain whose token follows ERC-20, seen from the run: the state is
    the allowance of the batch sender on the tokens of the signer.  A
    batch goes through when its amounts are non-negative and covered by
    the allowance, which it spends. *)
Definition covered (amounts : list Z) (c : Z) : bool :=
  forallb (λ amount, 0 <=? amount) amounts && (bn_sum amounts <=? c).

Definition erc20 : BatchSenderChain Z :=
  {| allowance _ c := c;
     approve _ amount _ := Some amount;
     sendAndEmit _ _ amounts _ c :=
       if covered amounts c then Some (c - bn_sum amounts) else None;
     callStatic_sendAndEmit _ _ amounts _ c := covered amounts c |}.

(** The same chain when the allowance is shared: every time a batch of the
    run is mined, a second sender working with the same key has spent
    [other] units of the allowance as well. *)
Definition contended (other : Z) : BatchSenderChain Z :=
  {| allowance _ c := c;
     approve _ amount _ := Some amount;
     sendAndEmit _ _ amounts _ c :=
       if covered amounts c then Some (Z.max 0 (c - bn_sum amounts - other)) else None;
     callStatic_sendAndEmit _ _ amounts _ c := covered amounts c |}.

Definition distributionTypeName (distributionTypeId : Z) : option string :=
  if distributionTypeId =? 1001 then Some "STIP LP"%string else None.

Definition fileName : string := "distribution_2023-10-18.json".

Definition liveEnv : Env :=
  {| WRITE := Some "true"%string;
     BATCH_SENDER_KEY := Some "0x0123456789abcdef"%string;
     SKIP_MIGRATION_VALIDATION := None;
     DRY_RUN := None;
     FILENAME := Some fileName;
     networkName := "arbitrum" |}.

Definition dryRunEnv : Env :=
  {| WRITE := Some "true"%string;
     BATCH_SENDER_KEY := Some "0x0123456789abcdef"%string;
     SKIP_MIGRATION_VALIDATION := None;
     DRY_RUN := Some "1"%string;
     FILENAME := Some fileName;
     networkName := "arbitrum" |}.

Definition overrideEnv : Env :=
  {| WRITE := Some "true"%string;
     BATCH_SENDER_KEY := Some "0x0123456789abcdef"%string;
     SKIP_MIGRATION_VALIDATION := Some "1"%string;
     DRY_RUN := None;
     FILENAME := Some fileName;
     networkName := "arbitrum" |}.

(** A world holding one distribution file, under [fileName]. *)
Definition worldOf (data : DistributionData) (ledger : option (gmap Z Z)) (allowance0 : Z)
    : World Z :=
  {| distributionFile path := if String.eqb path fileName then Some data else None;
     migrationsFile := ledger;
     clock := 1697626800123;
     chain := allowance0;
     log := [] |}.

(** [n] recipients, one unit each. *)
Definition recipientName (i : nat) : string := "0x" +:+ pretty i.

Definition unitEntries (n : nat) : list (string * Z) :=
  (λ i, (recipientName i, 1)) <$> seq 0 n.

Definition unitDistribution (n : nat) : DistributionData :=
  {| token := ARB; amounts := Some (unitEntries n); distributionTypeId := 1001; id := 7 |}.



(** [WRITE] set, but not to [true]. *)
Definition readOnlyEnv : Env :=
  {| WRITE := Some "1"%string;
     BATCH_SENDER_KEY := None;
     SKIP_MIGRATION_VALIDATION := None;
     DRY_RUN := None;
     FILENAME := Some fileName;
     networkName := "arbitrum" |}.

(** [DRY_RUN] set to the string [false]. *)
Definition dryRunFalseEnv : Env :=
  {| WRITE := Some "true"%string;
     BATCH_SENDER_KEY := Some "0x0123456789abcdef"%string;
     SKIP_MIGRATION_VALIDATION := None;
     DRY_RUN := Some "false"%string;
     FILENAME := Some fileName;
     networkName := "arbitrum" |}.


(** A file without recipients, and a file without an id. *)
Definition emptyDistribution : DistributionData :=
  {| token := ARB; amounts := Some []; distributionTypeId := 1001; id := 10 |}.

Definition unidentifiedDistribution : DistributionData :=
  {| token := ARB; amounts := Some (unitEntries 2); distributionTypeId := 1001; id := 0 |}.

(** A stand-in for the encoder of the ABI: the recipients of the call,
    joined. *)
Definition joinRecipients (tokenAddress : string) (recipients : list string)
    (amounts : list Z) (typeId : Z) : string :=
  foldr (λ recipient acc, recipient +:+ ";" +:+ acc) tokenAddress recipients.

End BatchSendSamples.

Module BalancesSamples.
Import Balances.

(** A stand-in for [ethers.utils.getAddress]: strings that start with
    [0x] are accepted and spelled in lower case. *)
Definition lowerCase (c : Ascii.ascii) : Ascii.ascii :=
  let n := Ascii.nat_of_ascii c in
  if ((65 <=? n) && (n <=? 90))%nat then Ascii.ascii_of_nat (n + 32) else c.

Fixpoint lowerCaseString (s : string) : string :=
  match s with
  | EmptyString => EmptyString
  | String c rest => String (lowerCase c) (lowerCaseString rest)
  end.

Definition lowerCaseAddress (address : string) : option string :=
  if String.prefix "0x" address then Some (lowerCaseString address) else None.

Definition gmEth : string := "0x70d95587d40a2caf56bd97485ab3eec10bee6336".
Definition gmBtc : string := "0x47c031236e19d024b42f8ae6780e44a573170703".
Definition alice : string := "0x1111111111111111111111111111111111111111".
Definition bob : string := "0x2222222222222222222222222222222222222222".
Definition carol : string := "0x3333333333333333333333333333333333333333".

(** One market with history: [alice] has a weighted balance and a current
    one, [bob] only a current one, [carol] a current balance of zero. *)
Definition answer : Response :=
  {| liquidityProviderIncentivesStats :=
       [ {| lpAccount := alice; lpMarketAddress := gmEth;
            weightedAverageMarketTokensBalance := 3 * 10 ^ 18 |} ];
     marketIncentivesStats :=
       [ {| statMarketAddress := gmEth;
            weightedAverageMarketTokensSupply := 4 * 10 ^ 18 |} ];
     userMarketInfos :=
       [ {| infoAccount := alice; infoMarketAddress := gmEth;
            marketTokensBalance := 9 * 10 ^ 18 |};
         {| infoAccount := bob; infoMarketAddress := gmEth;
            marketTokensBalance := 1 * 10 ^ 18 |};
         {| infoAccount := carol; infoMarketAddress := gmEth;
            marketTokensBalance := 0 |} ];
     marketInfos :=
       [ {| marketToken := gmEth; marketTokensSupply := 10 * 10 ^ 18 |} ] |}.

Definition gmEthInfo : MarketInfo :=
  {| marketToken := gmEth; marketTokensSupply := 10 * 10 ^ 18 |}.

Definition gmEthData : Incentives.MarketData :=
  {| Incentives.marketTokensSupply := 4 * 10 ^ 18;
     Incentives.userBalances := {[ alice := 3 * 10 ^ 18; bob := 1 * 10 ^ 18 ]} |}.

(** An allocation for a market the answer does not hold. *)
Definition btcAllocation : Incentives.LpAllocationData :=
  {| Incentives.isActive := true;
     Incentives.rewardsPerMarket := [(gmBtc, 1 * 10 ^ 18)];
     Incentives.totalRewards := 1 * 10 ^ 18 |}.

End BalancesSamples.

(** * Properties *)

(** ** Sums *)

Lemma bn_sum_foldl (l : list Z) (a : Z) : foldl Z.add a l = a + bn_sum l.
Proof.
  unfold bn_sum. revert a.
  induction l as [|x l IH]; intros a; simpl; [lia|].
  rewrite (IH (a + x)), (IH (0 + x)). lia.
Qed.

Lemma bn_sum_nil : bn_sum [] = 0.
Proof. reflexivity. Qed.

Lemma bn_sum_cons (x : Z) (l : list Z) : bn_sum (x :: l) = x + bn_sum l.
Proof. unfold bn_sum at 1. simpl. rewrite bn_sum_foldl. lia. Qed.

Lemma bn_sum_app (l k : list Z) : bn_sum (l ++ k) = bn_sum l + bn_sum k.
Proof.
  induction l as [|x l IH]; simpl.
  - rewrite bn_sum_nil. lia.
  - rewrite !bn_sum_cons, IH. lia.
Qed.

Lemma bn_sum_perm (l k : list Z) : l ≡ₚ k → bn_sum l = bn_sum k.
Proof.
  induction 1 as [|x l k _ IH|x y l|l k m _ IH1 _ IH2].
  - reflexivity.
  - rewrite !bn_sum_cons. lia.
  - rewrite !bn_sum_cons. lia.
  - congruence.
Qed.

Lemma bn_sum_nonneg (l : list Z) : Forall (λ x, 0 ≤ x) l → 0 ≤ bn_sum l.
Proof.
  induction 1 as [|x l Hx _ IH]; [by rewrite bn_sum_nil|].
  rewrite bn_sum_cons. lia.
Qed.

(** ** The allocation computation *)

Module IncentivesSpec.
Import Incentives.

Lemma expandDecimals_1_18 : expandDecimals 1 18 = 1000000000000000000.
Proof. reflexivity. Qed.

Lemma MIN_REWARD_THRESHOLD_value : MIN_REWARD_THRESHOLD = 100000000000000000.
Proof. reflexivity. Qed.

Lemma sumValues_empty : sumValues ∅ = 0.
Proof. unfold sumValues. by rewrite map_to_list_empty. Qed.

Lemma sumValues_insert_fresh (o : gmap string Z) k v :
  o !! k = None → sumValues (<[k:=v]> o) = v + sumValues o.
Proof.
  intros Hk. unfold sumValues.
  rewrite (bn_sum_perm _ ((k, v) :: map_to_list o).*2).
  - by rewrite fmap_cons, bn_sum_cons.
  - by rewrite map_to_list_insert.
Qed.

Lemma sumValues_delete (o : gmap string Z) k v :
  o !! k = Some v → sumValues o = v + sumValues (delete k o).
Proof.
  intros Hk. unfold sumValues.
  rewrite (bn_sum_perm _ ((k, v) :: map_to_list (delete k o)).*2).
  - by rewrite fmap_cons, bn_sum_cons.
  - by rewrite map_to_list_delete.
Qed.

Lemma sumValues_creditUser (o : gmap string Z) k r :
  sumValues (creditUser o k r) = sumValues o + r.
Proof.
  unfold creditUser. destruct (o !! k) as [v|] eqn:Hk; simpl.
  - rewrite <- insert_delete_eq.
    rewrite sumValues_insert_fresh by apply lookup_delete_eq.
    rewrite (sumValues_delete o k v Hk). lia.
  - rewrite sumValues_insert_fresh by done. lia.
Qed.

(** The inner loop only fails on a zero supply, and otherwise adds to the
    result exactly the quotients it computes. *)
Lemma distributeMarket_ok entries R S acc :
  S ≠ 0 →
  ∃ acc', distributeMarket entries R S acc = Ok acc' ∧
          sumValues acc' =
            sumValues acc + bn_sum ((λ e : string * Z, Z.quot (e.2 * R) S) <$> entries).
Proof.
  intros HS. revert acc.
  induction entries as [|[u b] entries IH]; intros acc; csimpl.
  - exists acc. rewrite bn_sum_nil. split; [done|lia].
  - unfold userRewardsOf, bn_div. destruct (decide (S = 0)) as [|_]; [done|].
    destruct (IH (creditUser acc u (Z.quot (b * R) S))) as (acc' & Hacc' & Hsum).
    exists acc'. split; [done|].
    rewrite Hsum, sumValues_creditUser, bn_sum_cons. lia.
Qed.

Lemma distributeMarket_err entries R S acc e :
  distributeMarket entries R S acc = Err e → e = DivisionByZeroError.
Proof.
  revert acc. induction entries as [|[u b] entries IH]; intros acc; simpl; [done|].
  destruct (userRewardsOf b R S); [apply IH|congruence].
Qed.

Lemma balancesMismatch_spec sum supply :
  balancesMismatch sum supply = true ↔ Z.abs (sum - supply) > 10 ^ 18.
Proof.
  unfold balancesMismatch. rewrite bool_decide_eq_true.
  by rewrite expandDecimals_1_18.
Qed.

Lemma processMarkets_app bd pre post acc :
  processMarkets bd (pre ++ post) acc =
    match processMarkets bd pre acc with
    | Err e => Err e
    | Ok acc' => processMarkets bd post acc'
    end.
Proof.
  revert acc. induction pre as [|[m R] pre IH]; intros acc; simpl; [done|].
  destruct (processMarket bd m R acc); [apply IH|done].
Qed.

(** A reconciliation error names a market of the allocation whose balances
    are further than the tolerance from its supply. *)
Lemma processMarkets_reconciliation bd markets acc m s u :
  processMarkets bd markets acc = Err (ReconciliationError m s u) →
  ∃ R data, (m, R) ∈ markets ∧ bd !! m = Some data ∧
            s = marketTokensSupply data ∧ u = userBalancesSum (userBalances data) ∧
            Z.abs (u - s) > 10 ^ 18.
Proof.
  revert acc. induction markets as [|[m' R'] markets IH]; intros acc; simpl; [done|].
  destruct (processMarket bd m' R' acc) as [acc'|e] eqn:Hstep.
  - intros H. destruct (IH _ H) as (R & data & Hin & Hrest).
    exists R, data. split; [by right|done].
  - intros [= ->]. unfold processMarket in Hstep.
    destruct (bd !! m') as [data|] eqn:Hdata; [|done].
    destruct (balancesMismatch _ _) eqn:Hmis.
    + injection Hstep as <- <- <-. exists R', data.
      apply balancesMismatch_spec in Hmis. repeat split; [by left|done|done].
    + by apply distributeMarket_err in Hstep.
Qed.

Lemma processMarkets_error_kind bd markets acc e :
  processMarkets bd markets acc = Err e →
  e = DivisionByZeroError ∨ (∃ m, e = NoBalancesDataError m) ∨
  (∃ m s u, e = ReconciliationError m s u).
Proof.
  revert acc. induction markets as [|[m R] markets IH]; intros acc; simpl; [done|].
  destruct (processMarket bd m R acc) as [acc'|e'] eqn:Hstep; [apply IH|].
  intros [= ->]. unfold processMarket in Hstep.
  destruct (bd !! m) as [data|].
  - destruct (balancesMismatch _ _).
    + injection Hstep as <-. right. right. eauto.
    + apply distributeMarket_err in Hstep. by left.
  - injection Hstep as <-. right. left. eauto.
Qed.

(** Rounding down: the quotients of one market, multiplied back by the
    supply, stay within the products they were computed from. *)
Lemma quot_sum_le (entries : list (string * Z)) R S :
  0 < S → 0 ≤ R → Forall (λ e : string * Z, 0 ≤ e.2) entries →
  S * bn_sum ((λ e : string * Z, Z.quot (e.2 * R) S) <$> entries) ≤ R * bn_sum entries.*2.
Proof.
  intros HS HR. induction 1 as [|[u b] entries Hb _ IH]; csimpl.
  - rewrite !bn_sum_nil. lia.
  - rewrite !bn_sum_cons. simpl in Hb.
    assert (0 ≤ b * R) as Hprod by lia.
    pose proof (Z.mul_div_le (b * R) S HS) as Hfloor.
    rewrite <- Z.quot_div_nonneg in Hfloor by lia.
    rewrite !Z.mul_add_distr_l. lia.
Qed.

Lemma filterStep_ok total st a r st' :
  filterStep total st (a, r) = Ok st' →
  userTotalRewards st' = userTotalRewards st + r ∧
  jsonResult st' =
    if bool_decide (r < MIN_REWARD_THRESHOLD) then jsonResult st
    else <[a := r]> (jsonResult st).
Proof.
  unfold filterStep. case_bool_decide.
  - by intros [= <-].
  - destruct (bn_div _ _); [|done]. by intros [= <-].
Qed.

Lemma filter_total total st l st' :
  filterLoop total st l = Ok st' →
  userTotalRewards st' = userTotalRewards st + bn_sum l.*2.
Proof.
  revert st. induction l as [|[a r] l IH]; intros st; csimpl.
  - intros [= <-]. rewrite bn_sum_nil. lia.
  - destruct (filterStep total st (a, r)) as [st1|e] eqn:Hstep; [|done].
    intros Hloop. apply IH in Hloop. apply filterStep_ok in Hstep as [Hsum _].
    rewrite bn_sum_cons. lia.
Qed.

(** What the filtering loop leaves in [jsonResult], for entries with
    pairwise different accounts. *)
Lemma filter_lookup total st (l : list (string * Z)) st' a r :
  filterLoop total st l = Ok st' →
  NoDup l.*1 →
  jsonResult st' !! a = Some r ↔
    ((a, r) ∈ l ∧ MIN_REWARD_THRESHOLD ≤ r) ∨
    (jsonResult st !! a = Some r ∧ ∀ r', (a, r') ∈ l → r' < MIN_REWARD_THRESHOLD).
Proof.
  revert st. induction l as [|[b rb] l IH]; intros st Hloop Hnodup; csimpl in *.
  - injection Hloop as <-.
    split; [intros H; right; split; [done|]; by intros r' ?%elem_of_nil|].
    intros [[?%elem_of_nil _]|[? _]]; done.
  - destruct (filterStep total st (b, rb)) as [st1|e] eqn:Hstep; [|done].
    apply NoDup_cons in Hnodup as [Hfresh Hnodup]. rewrite (IH _ Hloop Hnodup).
    assert (∀ r', (b, r') ∉ l) as Hb.
    { intros r' Hin. apply Hfresh. apply list_elem_of_fmap. by exists (b, r'). }
    apply filterStep_ok in Hstep as [_ ->].
    case_bool_decide as Hlow.
    + split.
      * intros [[Hin Hr]|[Hst Hall]]; [left; split; [by right|done]|].
        right. split; [done|]. intros r' [[= -> ->]|Hin]%elem_of_cons; [done|by apply Hall].
      * intros [[[[= -> ->]|Hin]%elem_of_cons Hr]|[Hst Hall]]; [lia|by left|].
        right. split; [done|]. intros r' Hin. apply Hall. by right.
    + split.
      * intros [[Hin Hr]|[Hst Hall]]; [left; split; [by right|done]|].
        destruct (decide (a = b)) as [->|Hne].
        -- rewrite lookup_insert_eq in Hst. injection Hst as ->.
           left. split; [by left|lia].
        -- rewrite lookup_insert_ne in Hst by done.
           right. split; [done|].
           intros r' [[= -> ->]|Hin]%elem_of_cons; [done|by apply Hall].
      * intros [[[[= -> ->]|Hin]%elem_of_cons Hr]|[Hst Hall]].
        -- right. rewrite lookup_insert_eq. split; [done|]. intros r' Hin. by destruct (Hb r').
        -- by left.
        -- destruct (decide (a = b)) as [->|Hne].
           ++ assert (rb < MIN_REWARD_THRESHOLD) by (apply Hall; by left). lia.
           ++ right. rewrite lookup_insert_ne by done. split; [done|].
              intros r' Hin. apply Hall. by right.
Qed.

(** The filtering loop fails only on the division by a zero total, for an
    account at or above the threshold. *)
Lemma filterLoop_ok total st l :
  total ≠ 0 ∨ Forall (λ e : string * Z, e.2 < MIN_REWARD_THRESHOLD) l →
  ∃ st', filterLoop total st l = Ok st'.
Proof.
  intros Hcase. revert st. induction l as [|[a r] l IH]; intros st; simpl; [eauto|].
  assert (∃ st1, filterStep total st (a, r) = Ok st1) as [st1 ->].
  { unfold filterStep, bn_div. case_bool_decide as Hlow; [eauto|].
    destruct (decide (total = 0)) as [->|_]; [|eauto].
    destruct Hcase as [?|Hall]; [done|]. apply Forall_cons in Hall as [? _]. done. }
  apply IH. destruct Hcase as [?|Hall]; [by left|right].
  by apply Forall_cons in Hall as [_ ?].
Qed.

Lemma filterLoop_err total st l e :
  filterLoop total st l = Err e → e = DivisionByZeroError ∧ total = 0.
Proof.
  revert st. induction l as [|[a r] l IH]; intros st; simpl; [done|].
  destruct (filterStep total st (a, r)) as [st1|e1] eqn:Hstep; [apply IH|].
  intros [= <-]. unfold filterStep, bn_div in Hstep.
  case_bool_decide; [done|]. destruct (decide (total = 0)); [|done].
  by injection Hstep as <-.
Qed.

Lemma sortEntries_perm l : sortEntries l ≡ₚ l.
Proof. apply merge_sort_Permutation. Qed.

Lemma filterRewards_total total U st :
  filterRewards total U = Ok st → userTotalRewards st = sumValues U.
Proof.
  unfold filterRewards. intros Hloop. apply filter_total in Hloop. rewrite Hloop. simpl.
  unfold sumValues. apply bn_sum_perm. by rewrite sortEntries_perm.
Qed.

Lemma filterRewards_lookup total (U : gmap string Z) st a r :
  filterRewards total U = Ok st →
  jsonResult st !! a = Some r ↔ U !! a = Some r ∧ MIN_REWARD_THRESHOLD ≤ r.
Proof.
  unfold filterRewards. intros Hloop. rewrite (filter_lookup _ _ _ _ _ _ Hloop).
  - rewrite sortEntries_perm, elem_of_map_to_list. simpl.
    rewrite lookup_empty. split; [intros [?|[? _]]; done|by left].
  - rewrite sortEntries_perm. apply NoDup_fst_map_to_list.
Qed.

Lemma filterRewards_ok total U :
  total ≠ 0 → ∃ st, filterRewards total U = Ok st.
Proof. intros Htotal. apply filterLoop_ok. by left. Qed.

Section MainProps.

Context (overrideReceivers : gmap string Z → gmap string Z).
Context (arbToken : string) (STIP_LP_DISTRIBUTION_TYPE_ID : Z).

Local Abbreviation run := (main overrideReceivers arbToken STIP_LP_DISTRIBUTION_TYPE_ID).

(** A run that fails writes no distribution file. *)
Lemma main_error_writes_nothing bd alloc :
  isErr (run bd alloc).1 = true → (run bd alloc).2 = None.
Proof.
  unfold main. destruct (negb (isActive alloc)); [done|].
  destruct (processMarkets _ _ _); [|done].
  destruct (filterRewards _ _); [|done].
  by case_bool_decide.
Qed.

(** C5. The reconciliation check of a market of the allocation: the run
    stops with [ReconciliationError] at the first market it reaches whose
    sum of per-account balances is more than 10^18 (1 unit at 18 decimals)
    away from the recorded supply, and only at such a market; a run that
    stops with an error writes no distribution file; and when the sum of
    the balances of every market equals its supply exactly the run raises
    no [ReconciliationError]. *)
Theorem C5_reconciliation_check bd alloc :
  (∀ m s u, (run bd alloc).1 = Err (ReconciliationError m s u) →
     ∃ R data, (m, R) ∈ rewardsPerMarket alloc ∧ bd !! m = Some data ∧
               s = marketTokensSupply data ∧ u = userBalancesSum (userBalances data) ∧
               Z.abs (u - s) > 10 ^ 18) ∧
  (∀ pre m R post acc data,
     isActive alloc = true →
     rewardsPerMarket alloc = pre ++ (m, R) :: post →
     processMarkets bd pre ∅ = Ok acc →
     bd !! m = Some data →
     (Z.abs (userBalancesSum (userBalances data) - marketTokensSupply data) > 10 ^ 18 ↔
      run bd alloc =
        (Err (ReconciliationError m (marketTokensSupply data)
                (userBalancesSum (userBalances data))), None))) ∧
  (isErr (run bd alloc).1 = true → (run bd alloc).2 = None) ∧
  ((∀ m R data, (m, R) ∈ rewardsPerMarket alloc → bd !! m = Some data →
      userBalancesSum (userBalances data) = marketTokensSupply data) →
   ∀ m s u, (run bd alloc).1 ≠ Err (ReconciliationError m s u)).
Proof.
  assert (Hinv : ∀ m s u, (run bd alloc).1 = Err (ReconciliationError m s u) →
     ∃ R data, (m, R) ∈ rewardsPerMarket alloc ∧ bd !! m = Some data ∧
               s = marketTokensSupply data ∧ u = userBalancesSum (userBalances data) ∧
               Z.abs (u - s) > 10 ^ 18).
  { intros m s u. unfold main. destruct (negb (isActive alloc)); [done|].
    destruct (processMarkets bd (rewardsPerMarket alloc) ∅) as [U|e] eqn:Hloop; simpl.
    - destruct (filterRewards _ U) as [st|e] eqn:Hfilter; simpl.
      + by case_bool_decide.
      + apply filterLoop_err in Hfilter as [-> _]. done.
    - intros [= ->]. by apply processMarkets_reconciliation in Hloop. }
  split; [exact Hinv|]. split; [|split].
  - intros pre m R post acc data Hactive Hmarkets Hpre Hdata.
    unfold main. rewrite Hactive, Hmarkets, processMarkets_app, Hpre. simpl.
    unfold processMarket. rewrite Hdata.
    destruct (balancesMismatch _ _) eqn:Hmis.
    + apply balancesMismatch_spec in Hmis. done.
    + assert (¬ Z.abs (userBalancesSum (userBalances data) - marketTokensSupply data)
                  > 10 ^ 18) as Hno.
      { rewrite <- balancesMismatch_spec. by rewrite Hmis. }
      split; [done|]. intros Hrun. exfalso.
      destruct (distributeMarket _ _ _ _) as [acc'|e] eqn:Hd.
      * destruct (processMarkets bd post acc') as [U|e] eqn:Hpost.
        -- destruct (filterRewards _ U) as [st|e] eqn:Hfilter.
           ++ by case_bool_decide.
           ++ apply filterLoop_err in Hfilter as [-> _]. done.
        -- injection Hrun as ->.
           apply processMarkets_reconciliation in Hpost as (? & ? & _ & ? & -> & -> & ?).
           simplify_eq. done.
      * apply distributeMarket_err in Hd. by subst e.
  - apply main_error_writes_nothing.
  - intros Heq m s u Hrun.
    destruct (Hinv _ _ _ Hrun) as (R & data & Hin & Hdata & -> & -> & Habs).
    rewrite (Heq _ _ _ Hin Hdata), Z.sub_diag in Habs. simpl in Habs. lia.
Qed.

(** The file a successful run writes holds the filtered rewards, as
    [overrideReceivers] leaves them. *)
Lemma main_output bd alloc d :
  (run bd alloc).2 = Some d →
  ∃ U st, processMarkets bd (rewardsPerMarket alloc) ∅ = Ok U ∧
          filterRewards (totalRewards alloc) U = Ok st ∧
          (run bd alloc).1 = Ok () ∧
          amounts d = overrideReceivers (jsonResult st).
Proof.
  unfold main. destruct (negb (isActive alloc)); [done|].
  destruct (processMarkets _ _ _) as [U|e]; [|done].
  destruct (filterRewards _ U) as [st|e] eqn:Hfilter; [|done].
  case_bool_decide; [done|]. simpl. intros [= <-]. by exists U, st.
Qed.

(** C6. The threshold filter: when the filtering loop has run over the
    aggregated rewards, an account whose aggregated reward is below 10^17
    (0.1 token at 18 decimals) is left out of [jsonResult], the mapping
    handed on for output, and an account whose aggregated reward is 10^17
    or more is in it with that reward; the loop does run to its end for a
    non-zero total allocation; an account with reward 1000000000000000000
    is included and one with 50000000000000000 is excluded; and the file a
    run writes holds this mapping, as [overrideReceivers] leaves it. *)
Theorem C6_threshold_filter (total : Z) (usersDistributionResult : gmap string Z)
    (account : string) :
  (∀ st, filterRewards total usersDistributionResult = Ok st →
     (∀ r, usersDistributionResult !! account = Some r → r < 10 ^ 17 →
           jsonResult st !! account = None) ∧
     (∀ r, usersDistributionResult !! account = Some r → 10 ^ 17 ≤ r →
           jsonResult st !! account = Some r) ∧
     (usersDistributionResult !! account = None → jsonResult st !! account = None)) ∧
  (total ≠ 0 →
     (∃ st, filterRewards total usersDistributionResult = Ok st) ∧
     (∃ st, filterRewards total {[ account := 1000000000000000000 ]} = Ok st ∧
            jsonResult st !! account = Some 1000000000000000000) ∧
     (∃ st, filterRewards total {[ account := 50000000000000000 ]} = Ok st ∧
            jsonResult st !! account = None)) ∧
  (∀ bd alloc d, (run bd alloc).2 = Some d →
     ∃ U st, processMarkets bd (rewardsPerMarket alloc) ∅ = Ok U ∧
             filterRewards (totalRewards alloc) U = Ok st ∧
             amounts d = overrideReceivers (jsonResult st)).
Proof.
  assert (Hout : ∀ (U : gmap string Z) st r, filterRewards total U = Ok st →
                 U !! account = Some r → r < 10 ^ 17 → jsonResult st !! account = None).
  { intros U st r Hst HU Hr.
    destruct (jsonResult st !! account) as [r'|] eqn:Hres; [|done].
    apply (filterRewards_lookup _ _ _ _ _ Hst) in Hres as [HU' Hr'].
    rewrite MIN_REWARD_THRESHOLD_value in Hr'. simplify_eq. lia. }
  assert (Hin : ∀ (U : gmap string Z) st r, filterRewards total U = Ok st →
                U !! account = Some r → 10 ^ 17 ≤ r → jsonResult st !! account = Some r).
  { intros U st r Hst HU Hr. apply (filterRewards_lookup _ _ _ _ _ Hst).
    rewrite MIN_REWARD_THRESHOLD_value. split; [done|lia]. }
  split; [|split].
  - intros st Hst. split; [|split].
    + intros r. by apply Hout.
    + intros r. by apply Hin.
    + intros HU.
      destruct (jsonResult st !! account) as [r'|] eqn:Hres; [|done].
      apply (filterRewards_lookup _ _ _ _ _ Hst) in Hres as [HU' _]. congruence.
  - intros Htotal. split; [by apply filterRewards_ok|]. split.
    + destruct (filterRewards_ok total {[ account := 1000000000000000000 ]} Htotal)
        as [st Hst].
      exists st. split; [done|].
      apply (Hin _ _ _ Hst); [apply lookup_singleton_eq|lia].
    + destruct (filterRewards_ok total {[ account := 50000000000000000 ]} Htotal)
        as [st Hst].
      exists st. split; [done|].
      apply (Hout _ _ 50000000000000000 Hst); [apply lookup_singleton_eq|lia].
  - intros bd alloc d Hd. destruct (main_output _ _ _ Hd) as (U & st & ? & ? & _ & ?). eauto.
Qed.

(** C3 (amended). The over-allocation check compares the total allocated
    reward with the sum of the aggregated rewards of all accounts, those
    below the threshold included: for a non-zero total allocation, once
    the markets have been processed, the run fails with
    [OverAllocationError] exactly when that sum exceeds [totalRewards]. *)
Theorem C3_over_allocation_all_accounts bd alloc x y :
  totalRewards alloc ≠ 0 →
  (run bd alloc).1 = Err (OverAllocationError x y) ↔
  isActive alloc = true ∧
  ∃ U, processMarkets bd (rewardsPerMarket alloc) ∅ = Ok U ∧
       x = sumValues U ∧ y = totalRewards alloc ∧
       sumValues U > totalRewards alloc.
Proof.
  intros Htotal. unfold main. split.
  - destruct (isActive alloc); [|done]. simpl.
    destruct (processMarkets _ _ _) as [U|e] eqn:Hloop; simpl.
    + destruct (filterRewards _ U) as [st|e] eqn:Hfilter; simpl.
      * rewrite (filterRewards_total _ _ _ Hfilter). case_bool_decide; [|done].
        simpl. intros [= <- <-]. split; [done|]. by exists U.
      * apply filterLoop_err in Hfilter as [-> _]. done.
    + intros [= ->].
      apply processMarkets_error_kind in Hloop as [?|[[? ?]|(? & ? & ? & ?)]]; done.
  - intros (Hactive & U & HU & -> & -> & Hgt).
    rewrite Hactive, HU. simpl.
    destruct (filterRewards_ok (totalRewards alloc) U Htotal) as [st Hst].
    rewrite Hst, (filterRewards_total _ _ _ Hst). by rewrite bool_decide_eq_true_2.
Qed.

(** C4 (amended). Rounding down keeps a market within its allocation when
    its balances do not add up to more than its supply: for a positive
    supply, a non-negative reward and non-negative balances whose sum is
    at most the supply, the per-account rewards of the market, each the
    quotient of balance times reward by the supply, add up to at most the
    reward of the market; this sum is what processing the market adds to
    the result, and the market is processed without error when the sum of
    the balances is within 10^18 of the supply. *)
Theorem C4_market_rewards_within_allocation bd m R data :
  bd !! m = Some data →
  0 < marketTokensSupply data →
  0 ≤ R →
  map_Forall (λ _ b, 0 ≤ b) (userBalances data) →
  userBalancesSum (userBalances data) ≤ marketTokensSupply data →
  bn_sum (marketUserRewards data R) ≤ R ∧
  (∀ acc acc', processMarket bd m R acc = Ok acc' →
     sumValues acc' - sumValues acc = bn_sum (marketUserRewards data R)) ∧
  (marketTokensSupply data - userBalancesSum (userBalances data) ≤ 10 ^ 18 →
   ∀ acc, ∃ acc', processMarket bd m R acc = Ok acc').
Proof.
  intros Hdata HS HR Hnonneg Hsum.
  assert (marketTokensSupply data ≠ 0) as HS0 by lia.
  split; [|split].
  - unfold marketUserRewards.
    assert (Forall (λ e : string * Z, 0 ≤ e.2) (map_to_list (userBalances data))) as Hall.
    { apply Forall_forall. intros [u b] Hin%elem_of_map_to_list. exact (Hnonneg u b Hin). }
    pose proof (quot_sum_le _ R _ HS HR Hall) as Hle.
    unfold userBalancesSum, sumValues in Hsum.
    set (q := bn_sum _) in *. set (total := bn_sum _) in *.
    nia.
  - intros acc acc'. unfold processMarket. rewrite Hdata.
    destruct (balancesMismatch _ _); [done|].
    destruct (distributeMarket_ok (map_to_list (userBalances data)) R _ acc HS0)
      as (acc'' & -> & Hadded).
    intros [= <-]. unfold marketUserRewards. lia.
  - intros Htol acc. unfold processMarket. rewrite Hdata.
    destruct (balancesMismatch _ _) eqn:Hmis.
    + apply balancesMismatch_spec in Hmis. lia.
    + destruct (distributeMarket_ok (map_to_list (userBalances data)) R _ acc HS0)
        as (acc' & Hacc' & _).
      by exists acc'.
Qed.

End MainProps.

Import IncentivesSamples.

(** C5 at a market three units away from its supply: the run stops with
    the reconciliation error and writes nothing. *)
Lemma C5_reconciliation_check_witness :
  main id ARB 1 divergingBalances divergingAllocation =
    (Err (ReconciliationError marketM1 (1 * 10 ^ 18) (4 * 10 ^ 18)), None).
Proof.
  destruct (C5_reconciliation_check id ARB 1 divergingBalances divergingAllocation)
    as (_ & Hfirst & _ & _).
  apply (Hfirst [] marketM1 (1 * 10 ^ 18) [] ∅ diverging);
    [reflexivity | reflexivity | reflexivity | reflexivity | by vm_compute].
Defined.

(** C6 on the result of the over-subscribed market: [accountA], at half
    a token, is kept; [accountB], at a twentieth, is dropped. *)
Lemma C6_threshold_filter_witness :
  ∃ st,
    filterRewards (5 * 10 ^ 17) {[ accountA := 5 * 10 ^ 17; accountB := 5 * 10 ^ 16 ]}
      = Ok st ∧
    jsonResult st !! accountA = Some (5 * 10 ^ 17) ∧
    jsonResult st !! accountB = None.
Proof.
  destruct (C6_threshold_filter id ARB 1 (5 * 10 ^ 17)
              {[ accountA := 5 * 10 ^ 17; accountB := 5 * 10 ^ 16 ]} accountA)
    as (HA & Hruns & _).
  destruct (C6_threshold_filter id ARB 1 (5 * 10 ^ 17)
              {[ accountA := 5 * 10 ^ 17; accountB := 5 * 10 ^ 16 ]} accountB)
    as (HB & _ & _).
  destruct Hruns as ([st Hst] & _); [lia|].
  exists st. split; [exact Hst|]. split.
  - destruct (HA st Hst) as (_ & Hin & _). apply Hin; [reflexivity | lia].
  - destruct (HB st Hst) as (Hout & _ & _). apply (Hout (5 * 10 ^ 16)); [reflexivity | lia].
Defined.

(** C3 as stated fails on the over-subscribed market: the only included
    account, [accountA], receives 5 * 10^17, which is within the total of
    5 * 10^17, and the run still fails with [OverAllocationError], because
    the 5 * 10^16 of the excluded [accountB] are counted. *)
Lemma C3_counterexample :
  processMarkets overSubscribedBalances (rewardsPerMarket overSubscribedAllocation) ∅
    = Ok {[ accountA := 5 * 10 ^ 17; accountB := 5 * 10 ^ 16 ]} ∧
  filterRewards (totalRewards overSubscribedAllocation)
      {[ accountA := 5 * 10 ^ 17; accountB := 5 * 10 ^ 16 ]}
    = Ok {| userTotalRewards := 55 * 10 ^ 16;
            jsonResult := {[ accountA := 5 * 10 ^ 17 ]};
            usersBelowThreshold := 1; eligibleUsers := 1 |} ∧
  sumValues {[ accountA := 5 * 10 ^ 17 ]} ≤ totalRewards overSubscribedAllocation ∧
  (main id ARB 1 overSubscribedBalances overSubscribedAllocation).1
    = Err (OverAllocationError (55 * 10 ^ 16) (5 * 10 ^ 17)).
Proof. repeat split; by vm_compute. Qed.

(** C3 (amended) at the same input, read from right to left. *)
Lemma C3_over_allocation_all_accounts_witness :
  (main id ARB 1 overSubscribedBalances overSubscribedAllocation).1
    = Err (OverAllocationError (55 * 10 ^ 16) (5 * 10 ^ 17)).
Proof.
  apply (C3_over_allocation_all_accounts id ARB 1); [by vm_compute|].
  split; [reflexivity|].
  exists {[ accountA := 5 * 10 ^ 17; accountB := 5 * 10 ^ 16 ]}.
  repeat split; by vm_compute.
Defined.

(** C4 as stated fails on the two markets: the run completes, and the
    first market, allocated 10^18, pays 2 * 10^18 to its one account. *)
Lemma C4_counterexample :
  (main id ARB 1 twoMarketsBalances twoMarketsAllocation).1 = Ok () ∧
  twoMarketsBalances !! marketM1 = Some market1 ∧
  (marketM1, 1 * 10 ^ 18) ∈ rewardsPerMarket twoMarketsAllocation ∧
  marketUserRewards market1 (1 * 10 ^ 18) = [2 * 10 ^ 18] ∧
  bn_sum (marketUserRewards market1 (1 * 10 ^ 18)) > 1 * 10 ^ 18.
Proof.
  split; [by vm_compute|]. split; [by vm_compute|].
  split; [by left|]. split; by vm_compute.
Qed.

(** C4 (amended) on a market shared three to one: an allocation of 10
    units pays 7 and 2. *)
Lemma C4_market_rewards_within_allocation_witness :
  bn_sum (marketUserRewards balanced 10) ≤ 10 ∧
  ∃ acc', processMarket balancedBalances marketM1 10 ∅ = Ok acc'.
Proof.
  destruct (C4_market_rewards_within_allocation balancedBalances marketM1 10 balanced)
    as (Hle & _ & Hruns).
  - reflexivity.
  - by vm_compute.
  - lia.
  - apply map_Forall_to_list. vm_compute.
    repeat (apply Forall_cons; split; [discriminate|]). apply Forall_nil_2.
  - by vm_compute.
  - split; [exact Hle|]. apply Hruns. by vm_compute.
Defined.

End IncentivesSpec.

(** ** The batch submitter *)

Module BatchSendSpec.
Import BatchSend.

(** *** Batches *)

Lemma range_from_zero (n step : nat) :
  (0 < step)%nat →
  range 0 n step = (λ i, (i * step)%nat) <$> seq 0 ((n + step - 1) / step)%nat.
Proof.
  intros Hstep. unfold range. destruct step as [|step]; [lia|].
  by rewrite Nat.sub_0_r.
Qed.

Lemma range_covers (n step : nat) :
  (0 < step)%nat → (n ≤ (n + step - 1) / step * step)%nat.
Proof.
  intros Hstep.
  pose proof (Nat.div_mod_eq (n + step - 1) step) as Hdiv.
  pose proof (Nat.mod_upper_bound (n + step - 1) step) as Hmod.
  nia.
Qed.

(** Cutting a list every [batchSize] elements and gluing the pieces. *)
Lemma concat_chunks {A} (batchSize m : nat) (l : list A) :
  (length l ≤ m * batchSize)%nat →
  concat ((λ i, take batchSize (drop (i * batchSize) l)) <$> seq 0 m) = l.
Proof.
  revert l. induction m as [|m IH]; intros l Hlen.
  - simpl in *. destruct l; [done|simpl in Hlen; lia].
  - rewrite <- cons_seq, fmap_cons. simpl concat.
    rewrite <- fmap_S_seq, <- list_fmap_compose.
    rewrite (list_fmap_ext _ (λ i, take batchSize (drop (i * batchSize) (drop batchSize l)))
               (seq 0 m)).
    + rewrite IH; [apply take_drop|]. rewrite length_drop. lia.
    + intros i x _. simpl. rewrite drop_drop. repeat f_equal; lia.
Qed.

(** The clamped upper bound of [main] and the unclamped one of
    [getBatchSenderCalldata] cut the same slice. *)
Lemma slice_clamped {A} (batchSize from : nat) (l : list A) :
  slice from (Nat.min (from + batchSize) (length l)) l = take batchSize (drop from l).
Proof.
  unfold slice. destruct (decide (from + batchSize ≤ length l)%nat).
  - f_equal. lia.
  - rewrite !take_ge; [done| |]; rewrite length_drop; lia.
Qed.

Lemma slice_unclamped {A} (batchSize from : nat) (l : list A) :
  slice from (from + batchSize) l = take batchSize (drop from l).
Proof. unfold slice. f_equal. lia. Qed.

Lemma mainBatches_pairs (batchSize : nat) (entries : list (string * Z)) :
  (λ batch : nat * nat * list string * list Z, zip batch.1.2 batch.2)
    <$> mainBatches batchSize entries.*1 entries.*2 =
  (λ from, take batchSize (drop from entries)) <$> range 0 (length entries) batchSize.
Proof.
  unfold mainBatches. rewrite <- list_fmap_compose.
  rewrite (length_fmap snd entries) at 1.
  apply list_fmap_ext. intros _ from _. simpl.
  rewrite slice_clamped.
  replace (length entries.*2) with (length entries.*1) by by rewrite !length_fmap.
  rewrite slice_clamped.
  rewrite <- !fmap_drop, <- !fmap_take. apply zip_fst_snd.
Qed.

(** The [i]-th batch of [main]: its bounds and its two slices. *)
Lemma mainBatches_lookup (entries : list (string * Z)) (i : nat)
    (batch : nat * nat * list string * list Z) :
  mainBatches 150 entries.*1 entries.*2 !! i = Some batch →
  batch = ((i * 150)%nat, Nat.min (i * 150 + 150) (length entries),
           (take 150 (drop (i * 150) entries)).*1,
           (take 150 (drop (i * 150) entries)).*2).
Proof.
  unfold mainBatches. rewrite range_from_zero by lia.
  rewrite <- list_fmap_compose, list_lookup_fmap.
  destruct (seq 0 _ !! i) as [j|] eqn:Hj; [|done].
  apply lookup_seq in Hj as [-> _]. simpl. intros [= <-].
  unfold batchAt. rewrite (length_fmap snd entries). simpl.
  rewrite <- (length_fmap fst entries) at 2. rewrite slice_clamped.
  rewrite <- (length_fmap snd entries) at 2. rewrite slice_clamped.
  by rewrite !fmap_take, !fmap_drop.
Qed.


Lemma range_elem (n step i : nat) :
  (0 < step)%nat → (i * step < n)%nat → (i * step)%nat ∈ range 0 n step.
Proof.
  intros Hstep Hi. rewrite range_from_zero by done.
  apply list_elem_of_fmap. exists i. split; [done|].
  apply elem_of_seq. split; [lia|]. simpl.
  pose proof (Nat.div_mod_eq (n + step - 1) step) as Hdiv.
  pose proof (Nat.mod_upper_bound (n + step - 1) step) as Hmod.
  nia.
Qed.

(** Assignments under pairwise different keys: each key ends up with the
    value assigned for it. *)
Lemma foldl_insert_lookup {V} (key : nat → nat * Z) (val : nat → V)
    (froms : list nat) (m : gmap (nat * Z) V) (x : nat) :
  (∀ a b, key a = key b → a = b) →
  x ∈ froms →
  foldl (λ acc from, <[key from := val from]> acc) m froms !! key x = Some (val x).
Proof.
  intros Hinj. induction froms as [|a froms IH] using rev_ind; intros Hin.
  - by apply elem_of_nil in Hin.
  - rewrite foldl_app. simpl.
    destruct (decide (x = a)) as [->|Hne]; [by rewrite lookup_insert_eq|].
    rewrite lookup_insert_ne by (intros Hkey; by apply Hinj in Hkey).
    apply IH. apply elem_of_app in Hin as [?|Hin%list_elem_of_singleton]; done.
Qed.

(** Assignments key by key: the keys of the result. *)
Lemma foldl_insert_is_Some {K V} `{Countable K} {A} (key : A → K) (val : A → V)
    (l : list A) (m : gmap K V) (k : K) :
  is_Some (foldl (λ acc x, <[key x := val x]> acc) m l !! k) ↔
  is_Some (m !! k) ∨ ∃ x, x ∈ l ∧ key x = k.
Proof.
  revert m. induction l as [|a l IH]; intros m; simpl.
  - split; [by left|]. intros [?|(x & Hin & _)]; [done|]. by apply elem_of_nil in Hin.
  - rewrite IH, lookup_insert_is_Some'. split.
    + intros [[<-|?]|(x & Hin & <-)]; [right; exists a; split; [by left|done]|by left|].
      right. exists x. split; [by right|done].
    + intros [?|(x & [->|Hin]%elem_of_cons & <-)]; [left; by right|left; by left|].
      right. eauto.
Qed.

(** *** The run *)

Section RunProps.

Context {Chain : Type} `{!BatchSenderChain Chain}.
Context (getDistributionTypeName : Z → option string).

Local Abbreviation run := (main getDistributionTypeName).
Local Abbreviation readFile := (readDistributionFile getDistributionTypeName).

(** [seenRecipients] is created empty and nothing is ever added to it:
    the membership test of the inner loop fails for every recipient. *)
Lemma checkRecipients_empty from to (batchRecipients : list string) :
  checkRecipients ∅ from to batchRecipients = Ok ().
Proof.
  induction batchRecipients as [|recipient rest IH]; simpl; [done|].
  rewrite bool_decide_eq_false_2; [done|]. apply not_elem_of_empty.
Qed.

(** The loop over the batches: the calls it makes are batch calls, one per
    value of [from], in order, each made after the previous one was
    accepted; it stops at the first call the chain rejects. *)
Lemma sendBatches_log env data recipients amounts batchSize froms (w : World Chain) :
  let r := sendBatches env data recipients amounts batchSize ∅ froms w in
  ∃ evs,
    log r.1 = log w ++ evs ∧
    migrationsFile r.1 = migrationsFile w ∧
    clock r.1 = clock w ∧
    distributionFile r.1 = distributionFile w ∧
    Forall (λ ev, isBatchEvent ev = true ∧
                  isBatchTransaction ev = negb (truthy (DRY_RUN env))) evs ∧
    match r.2 with
    | Ok _ =>
        batchOf <$> evs = (λ from, Some (batchAt batchSize recipients amounts from)) <$> froms ∧
        Forall (λ ev, confirmed data ev = true) evs
    | Err e =>
        ∃ evs' ev visited from rest,
          evs = evs' ++ [ev] ∧ froms = visited ++ from :: rest ∧
          batchOf <$> evs'
            = (λ from, Some (batchAt batchSize recipients amounts from)) <$> visited ∧
          batchOf ev = Some (batchAt batchSize recipients amounts from) ∧
          Forall (λ ev, confirmed data ev = true) evs' ∧
          confirmed data ev = false ∧
          e = SubmissionError from (Nat.min (from + batchSize) (length amounts))
    end.
Proof.
  revert w. induction froms as [|from froms IH]; intros w; simpl.
  { exists []. rewrite app_nil_r. repeat split; constructor. }
  rewrite checkRecipients_empty.
  destruct (truthy (DRY_RUN env)) eqn:Hdry.
  - set (ev := EvCallStatic _ _ _ _ _).
    destruct (callStatic_sendAndEmit _ _ _ _ _) eqn:Hcall.
    + destruct (IH (logEvent ev w)) as (evs & Hlog & Hfile & Hclock & Hdist & Hkind & Hres).
      exists (ev :: evs). rewrite Hlog, Hfile, Hclock, Hdist. simpl.
      rewrite <- app_assoc. repeat split; [by constructor|].
      destruct (sendBatches _ _ _ _ _ _ _ _).2 as [[]|e].
      * destruct Hres as [Hbatches Hok]. split; [by f_equal|].
        by constructor.
      * destruct Hres as (evs' & ev' & visited & from' & rest & -> & -> & Hb & Hev & Hok & Hno & ->).
        exists (ev :: evs'), ev', (from :: visited), from', rest.
        repeat split; try done; [by csimpl; f_equal|by constructor].
    + exists [ev]. simpl. repeat split; [by repeat constructor|].
      exists [], ev, [], from, froms. by repeat split.
  - set (ev := EvSendAndEmit _ _ _ _ _).
    destruct (sendAndEmit _ _ _ _ _) as [c|] eqn:Hsend.
    + destruct (IH (setChain c (logEvent ev w)))
        as (evs & Hlog & Hfile & Hclock & Hdist & Hkind & Hres).
      exists (ev :: evs). rewrite Hlog, Hfile, Hclock, Hdist. simpl.
      rewrite <- app_assoc. repeat split; [by constructor|].
      destruct (sendBatches _ _ _ _ _ _ _ _).2 as [[]|e].
      * destruct Hres as [Hbatches Hok]. split; [by f_equal|].
        constructor; [|done]. simpl. by rewrite Hsend.
      * destruct Hres as (evs' & ev' & visited & from' & rest & -> & -> & Hb & Hev & Hok & Hno & ->).
        exists (ev :: evs'), ev', (from :: visited), from', rest.
        repeat split; try done; [by csimpl; f_equal|].
        constructor; [|done]. simpl. by rewrite Hsend.
    + exists [ev]. simpl. repeat split; [by repeat constructor|].
      exists [], ev, [], from, froms. repeat split; try done.
      simpl. by rewrite Hsend.
Qed.

(** The calls of [sendDistribution]: one reading of the allowance, then
    the approval of the total when the allowance is lower, then the batch
    calls; the ledger file is rewritten when, and only when, all of them
    were accepted. *)
Lemma sendDistribution_spec env data migrations recipients amounts (w : World Chain) :
  let r := sendDistribution env data migrations recipients amounts w in
  let approvalEvs :=
    if bool_decide (allowance (token data) (chain w) < bn_sum amounts)
    then [EvApprove (chain w) (token data) (bn_sum amounts)] else [] in
  ∃ batchEvs,
    log r.1 = log w ++ EvAllowance (chain w) (token data) :: approvalEvs ++ batchEvs ∧
    clock r.1 = clock w ∧
    distributionFile r.1 = distributionFile w ∧
    Forall (λ ev, isBatchEvent ev = true ∧
                  isBatchTransaction ev = negb (truthy (DRY_RUN env))) batchEvs ∧
    match r.2 with
    | Ok _ =>
        migrationsFile r.1 = Some (<[id data := clock w `div` 1000]> migrations) ∧
        batchOf <$> batchEvs = Some <$> mainBatches 150 recipients amounts ∧
        Forall (λ ev, confirmed data ev = true) (approvalEvs ++ batchEvs)
    | Err e =>
        migrationsFile r.1 = migrationsFile w ∧
        ((e = ApprovalError ∧ batchEvs = [] ∧
          approve (token data) (bn_sum amounts) (chain w) = None ∧
          allowance (token data) (chain w) < bn_sum amounts) ∨
         (∃ evs' ev visited from rest,
            batchEvs = evs' ++ [ev] ∧
            range 0 (length amounts) 150 = visited ++ from :: rest ∧
            batchOf <$> evs' = (λ from, Some (batchAt 150 recipients amounts from)) <$> visited ∧
            batchOf ev = Some (batchAt 150 recipients amounts from) ∧
            Forall (λ ev, confirmed data ev = true) (approvalEvs ++ evs') ∧
            confirmed data ev = false ∧
            e = SubmissionError from (Nat.min (from + 150) (length amounts))))
    end.
Proof.
  unfold sendDistribution, ensureAllowance.
  set (total := bn_sum amounts). set (froms := range 0 (length amounts) 150).
  case_bool_decide as Hlow.
  - destruct (approve (token data) total (chain w)) as [c|] eqn:Happrove.
    + set (w1 := setChain c _).
      destruct (sendBatches_log env data recipients amounts 150%nat froms w1)
        as (evs & Hlog & Hfile & Hclock & Hdist & Hkind & Hres).
      destruct (sendBatches _ _ _ _ _ _ _ _) as [w2 [[]|e]]; simpl in *.
      * exists evs. rewrite Hlog, Hclock, <- !app_assoc. simpl.
        destruct Hres as [Hbatches Hok].
        repeat split; try done.
        -- unfold mainBatches. by rewrite <- list_fmap_compose.
        -- constructor; [|done]. simpl. fold total. by rewrite Happrove.
      * exists evs. rewrite Hlog, Hclock, <- !app_assoc. simpl.
        repeat split; try done. right.
        destruct Hres as (evs' & ev & visited & from & rest & -> & Hfrom & Hb & Hev & Hok & Hno & ->).
        exists evs', ev, visited, from, rest. repeat split; try done.
        constructor; [|done]. simpl. fold total. by rewrite Happrove.
    + exists []. simpl. rewrite <- !app_assoc. repeat split; try done. by left.
  - set (w1 := logEvent _ w).
    destruct (sendBatches_log env data recipients amounts 150%nat froms w1)
      as (evs & Hlog & Hfile & Hclock & Hdist & Hkind & Hres).
    destruct (sendBatches _ _ _ _ _ _ _ _) as [w2 [[]|e]]; simpl in *.
    + exists evs. rewrite Hlog, Hclock, <- !app_assoc. simpl.
      destruct Hres as [Hbatches Hok].
      repeat split; try done.
      unfold mainBatches. by rewrite <- list_fmap_compose.
    + exists evs. rewrite Hlog, Hclock, <- !app_assoc. simpl.
      repeat split; try done. right.
      destruct Hres as (evs' & ev & visited & from & rest & -> & Hfrom & Hb & Hev & Hok & Hno & ->).
      by exists evs', ev, visited, from, rest.
Qed.

Lemma readFile_error env (w : World Chain) e :
  readFile env w = Err e → ∃ message, e = InputValidationError message.
Proof.
  unfold readDistributionFile.
  repeat (match goal with
          | |- context [if ?b then _ else _] => destruct b
          | |- context [match ?o with Some _ => _ | None => _ end] => destruct o
          end);
    intros [= <-]; eauto.
Qed.

(** The file is looked up under [FILENAME] only. *)
Lemma readFile_ext env env' (w w' : World Chain) :
  FILENAME env' = FILENAME env →
  distributionFile w' = distributionFile w →
  readFile env' w' = readFile env w.
Proof. unfold readDistributionFile. by intros -> ->. Qed.

(** The three ways a run goes: it stops before touching the world, it
    ends in read-only mode, or it enters [sendDistribution]. *)
Lemma main_cases env (w : World Chain) :
  (∃ e, run env w = (w, Err e) ∧
        ((∃ message, e = InputValidationError message) ∨
         (∃ i, e = AlreadySentError i) ∨ e = KeyRequiredError ∨
         (∃ network, e = UnsupportedNetworkError network))) ∨
  (run env w = (w, Ok ()) ∧ shouldSendTxn env = false) ∨
  (∃ data entries name,
     readFile env w = Ok (data, entries, name) ∧
     shouldSendTxn env = true ∧
     (alreadySent (readMigrations w) (id data) = false ∨
      truthy (SKIP_MIGRATION_VALIDATION env) = true) ∧
     truthy (BATCH_SENDER_KEY env) = true ∧
     networkName env = "arbitrum"%string ∧
     run env w = sendDistribution env data (readMigrations w) entries.*1 entries.*2 w).
Proof.
  unfold main.
  destruct (readFile env w) as [[[data entries] name]|e] eqn:Hread.
  2: { left. exists e. split; [done|]. left. by eapply readFile_error. }
  destruct (alreadySent _ _) eqn:Hsent, (truthy (SKIP_MIGRATION_VALIDATION env)) eqn:Hskip;
    simpl.
  2: { left. eexists. split; [done|]. right. left. eauto. }
  all: destruct (shouldSendTxn env) eqn:Hwrite, (truthy (BATCH_SENDER_KEY env)) eqn:Hkey;
    simpl.
  all: try (left; eexists; split; [done|]; by right; right; left).
  all: unfold getValues; destruct (String.eqb (networkName env) "arbitrum") eqn:Hnet.
  all: try (left; eexists; split; [done|]; right; right; right; eauto).
  all: try (right; left; done).
  all: apply String.eqb_eq in Hnet.
  all: right; right; exists data, entries, name; repeat split; auto.
Qed.

Lemma sendDistribution_error env data migrations recipients amounts (w : World Chain) e :
  (sendDistribution env data migrations recipients amounts w).2 = Err e →
  e = ApprovalError ∨ ∃ from to, e = SubmissionError from to.
Proof.
  intros He.
  destruct (sendDistribution_spec env data migrations recipients amounts w)
    as (evs & _ & _ & _ & _ & Hres).
  rewrite He in Hres. destruct Hres as [_ [(-> & _)|(? & ? & ? & ? & ? & Hrest)]]; [by left|].
  right. destruct Hrest as (_ & _ & _ & _ & _ & _ & ->). eauto.
Qed.


Lemma batchOf_omap {C} (evs : list (Event C)) batches :
  batchOf <$> evs = Some <$> batches → omap batchOf evs = batches.
Proof.
  revert batches. induction evs as [|ev evs IH]; intros [|b batches]; csimpl; try done.
  intros [= Hev Hrest]. rewrite Hev. simpl. f_equal. by apply IH.
Qed.

Lemma batch_event_of_calls (ev : Event Chain) c token approvalEvs batchEvs :
  (approvalEvs = [] ∨ ∃ c' amount, approvalEvs = [EvApprove c' token amount]) →
  ev ∈ EvAllowance c token :: approvalEvs ++ batchEvs →
  isBatchEvent ev = true → ev ∈ batchEvs.
Proof.
  intros Happ [->|[Hin|Hin]%elem_of_app]%elem_of_cons Hbatch; [done| |done].
  destruct Happ as [->|(c' & amount & ->)].
  - by apply elem_of_nil in Hin.
  - apply list_elem_of_singleton in Hin as ->. done.
Qed.

(** The sum of what is left splits into the next batch and the rest. *)
Lemma remaining_split (amounts : list Z) (batchSize j : nat) :
  bn_sum (drop (j * batchSize) amounts) =
    bn_sum (take batchSize (drop (j * batchSize) amounts))
    + bn_sum (drop (S j * batchSize) amounts).
Proof.
  rewrite <- bn_sum_app.
  replace (S j * batchSize)%nat with (j * batchSize + batchSize)%nat by lia.
  by rewrite <- drop_drop, take_drop.
Qed.

(** On a chain where a batch spends from the allowance exactly what it
    sends, the allowance covers what is left at every batch call, once it
    covers it at the first. *)
Lemma sendBatches_allowance env data recipients amounts batchSize m j (w : World Chain) :
  (∀ token rs amts typeId c c',
     sendAndEmit token rs amts typeId c = Some c' →
     allowance token c' = allowance token c - bn_sum amts) →
  truthy (DRY_RUN env) = false ∨ Forall (λ amount, 0 ≤ amount) amounts →
  bn_sum (drop (j * batchSize) amounts) ≤ allowance (token data) (chain w) →
  ∃ evs,
    log (sendBatches env data recipients amounts batchSize ∅
           ((λ i, (i * batchSize)%nat) <$> seq j m) w).1 = log w ++ evs ∧
    Forall (allowanceCovers data amounts) evs.
Proof.
  intros Hspend Hmode. revert j w.
  induction m as [|m IH]; intros j w Hcovers; csimpl.
  { exists []. by rewrite app_nil_r. }
  rewrite checkRecipients_empty, !slice_clamped.
  pose proof (remaining_split amounts batchSize j) as Hsplit.
  destruct (truthy (DRY_RUN env)) eqn:Hdry.
  - destruct Hmode as [?|Hnonneg]; [done|].
    set (ev := EvCallStatic _ _ _ _ _).
    destruct (callStatic_sendAndEmit _ _ _ _ _).
    + assert (bn_sum (drop (S j * batchSize) amounts) ≤ allowance (token data) (chain w))
        as Hnext.
      { assert (0 ≤ bn_sum (take batchSize (drop (j * batchSize) amounts))).
        { by apply bn_sum_nonneg, Forall_take, Forall_drop. }
        lia. }
      destruct (IH (S j) (logEvent ev w) Hnext) as (evs & Hlog & Hall).
      exists (ev :: evs). rewrite Hlog. simpl. rewrite <- app_assoc.
      split; [done|]. by constructor.
    + exists [ev]. split; [done|]. by repeat constructor.
  - set (ev := EvSendAndEmit _ _ _ _ _).
    destruct (sendAndEmit _ _ _ _ _) as [c|] eqn:Hsend.
    + assert (bn_sum (drop (S j * batchSize) amounts) ≤ allowance (token data) c)
        as Hnext.
      { rewrite (Hspend _ _ _ _ _ _ Hsend). lia. }
      destruct (IH (S j) (setChain c (logEvent ev w)) Hnext) as (evs & Hlog & Hall).
      exists (ev :: evs). rewrite Hlog. simpl. rewrite <- app_assoc.
      split; [done|]. by constructor.
    + exists [ev]. split; [done|]. by repeat constructor.
Qed.

(** The same for the whole of [sendDistribution], when an approval sets
    the allowance to the amount approved. *)
Lemma sendDistribution_allowance env data migrations recipients amounts (w : World Chain) :
  (∀ token amount c c',
     approve token amount c = Some c' → allowance token c' = amount) →
  (∀ token rs amts typeId c c',
     sendAndEmit token rs amts typeId c = Some c' →
     allowance token c' = allowance token c - bn_sum amts) →
  truthy (DRY_RUN env) = false ∨ Forall (λ amount, 0 ≤ amount) amounts →
  ∃ evs,
    log (sendDistribution env data migrations recipients amounts w).1 = log w ++ evs ∧
    Forall (allowanceCovers data amounts) evs.
Proof.
  intros Happrove Hspend Hmode.
  unfold sendDistribution, ensureAllowance. rewrite range_from_zero by lia.
  set (k := ((length amounts + 150 - 1) / 150)%nat).
  case_bool_decide as Hlow.
  - destruct (approve (token data) (bn_sum amounts) (chain w)) as [c|] eqn:Hc.
    + set (w1 := setChain c _).
      destruct (sendBatches_allowance env data recipients amounts 150%nat k 0%nat w1
                  Hspend Hmode) as (evs & Hlog & Hall).
      { change (bn_sum amounts ≤ allowance (token data) c).
        rewrite (Happrove _ _ _ _ Hc). lia. }
      destruct (sendBatches _ _ _ _ _ _ _ _) as [w2 [[]|e]]; simpl in *.
      all: eexists; rewrite Hlog, <- !app_assoc; split; [done|].
      all: by repeat constructor.
    + eexists. simpl. rewrite <- !app_assoc. split; [done|]. by repeat constructor.
  - set (w1 := logEvent _ w).
    destruct (sendBatches_allowance env data recipients amounts 150%nat k 0%nat w1
                Hspend Hmode) as (evs & Hlog & Hall).
    { change (bn_sum amounts ≤ allowance (token data) (chain w)). lia. }
    destruct (sendBatches _ _ _ _ _ _ _ _) as [w2 [[]|e]]; simpl in *.
    all: eexists; rewrite Hlog, <- !app_assoc; split; [done|].
    all: by repeat constructor.
Qed.

(** C2 (amended). The allowance is ensured once per run, not once per
    batch: a run that reaches the chain reads the allowance exactly once,
    before any batch, compares it with the total of all amounts, and sends
    an approval of that total exactly when the allowance is lower; every
    later call is a batch call, so nothing is read or approved between
    two batches.  On a chain where an approval sets the allowance and a
    batch spends from it exactly what it sends, this is enough: at every
    batch call the allowance covers the amounts from that batch on (the
    amounts being non-negative when the batches are only simulated). *)
Theorem C2_allowance_ensured_once env (w : World Chain) :
  let r := run env w in
  (r.1 = w ∨
   ∃ data entries name batchEvs,
     readFile env w = Ok (data, entries, name) ∧
     log r.1 = log w ++
       EvAllowance (chain w) (token data) ::
       (if bool_decide (allowance (token data) (chain w) < bn_sum entries.*2)
        then [EvApprove (chain w) (token data) (bn_sum entries.*2)] else []) ++
       batchEvs ∧
     Forall (λ ev, isBatchEvent ev = true) batchEvs ∧
     (batchEvs ≠ [] →
      allowance (token data) (chain w) < bn_sum entries.*2 →
      is_Some (approve (token data) (bn_sum entries.*2) (chain w)))) ∧
  (∀ data entries name evs,
     readFile env w = Ok (data, entries, name) →
     (∀ token amount c c',
        approve token amount c = Some c' → allowance token c' = amount) →
     (∀ token rs amts typeId c c',
        sendAndEmit token rs amts typeId c = Some c' →
        allowance token c' = allowance token c - bn_sum amts) →
     truthy (DRY_RUN env) = false ∨ Forall (λ amount, 0 ≤ amount) entries.*2 →
     log r.1 = log w ++ evs →
     Forall (allowanceCovers data entries.*2) evs).
Proof.
  intros r. subst r. split.
  - destruct (main_cases env w)
      as [(e & -> & _)|[[-> _]|(data & entries & name & Hread & _ & _ & _ & _ & ->)]];
      [by left|by left|].
    right.
    destruct (sendDistribution_spec env data (readMigrations w) entries.*1 entries.*2 w)
      as (batchEvs & Hlog & _ & _ & Hkind & Hres).
    exists data, entries, name, batchEvs. repeat split; [done|done| |].
    + eapply Forall_impl; [exact Hkind|]. by intros ev [? _].
    + intros Hne Hlow.
      destruct (approve _ _ _) eqn:Happrove; [done|]. exfalso.
      destruct (sendDistribution _ _ _ _ _ _).2 as [[]|e].
      * destruct Hres as (_ & _ & Hok). rewrite bool_decide_eq_true_2 in Hok by done.
        apply Forall_cons in Hok as [Hok _]. simpl in Hok. by rewrite Happrove in Hok.
      * destruct Hres as [_ [(_ & -> & _)|Hsub]]; [done|].
        destruct Hsub as (? & ? & ? & ? & ? & _ & _ & _ & _ & Hok & _).
        rewrite bool_decide_eq_true_2 in Hok by done.
        apply Forall_app in Hok as [Hok _]. apply Forall_cons in Hok as [Hok _].
        simpl in Hok. by rewrite Happrove in Hok.
  - intros data entries name evs Hread Happrove Hspend Hmode Hlog.
    destruct (main_cases env w)
      as [(e & Hrun & _)|[[Hrun _]|(data' & entries' & name' & Hread' & _ & _ & _ & _ & Hrun)]].
    1, 2: rewrite Hrun in Hlog; simpl in Hlog;
          rewrite <- (app_nil_r (log w)) in Hlog at 1;
          apply app_inv_head in Hlog as <-; constructor.
    assert (data' = data ∧ entries' = entries) as [-> ->] by (split; congruence).
    destruct (sendDistribution_allowance env data (readMigrations w) entries.*1 entries.*2 w
                Happrove Hspend Hmode) as (evs' & Hlog' & Hall).
    rewrite Hrun, Hlog' in Hlog. by apply app_inv_head in Hlog as <-.
Qed.

(** C8. The ledger check: with the distribution file read, a run whose
    distribution id has an entry (a non-zero timestamp) in the ledger and
    whose override variable is unset or empty stops with
    [AlreadySentError], the world untouched; with the override set, or
    without an entry for the id, the run never stops with that error and,
    in write mode with a key on a supported network, goes on to
    [sendDistribution]; a missing ledger file reads as the empty ledger. *)
Theorem C8_ledger_check env (w : World Chain) data entries name :
  readFile env w = Ok (data, entries, name) →
  (∀ timestamp,
     readMigrations w !! id data = Some timestamp → timestamp ≠ 0 →
     truthy (SKIP_MIGRATION_VALIDATION env) = false →
     run env w = (w, Err (AlreadySentError (id data)))) ∧
  (truthy (SKIP_MIGRATION_VALIDATION env) = true ∨ readMigrations w !! id data = None →
     (∀ i, (run env w).2 ≠ Err (AlreadySentError i)) ∧
     (shouldSendTxn env = true → truthy (BATCH_SENDER_KEY env) = true →
      networkName env = "arbitrum"%string →
      run env w = sendDistribution env data (readMigrations w) entries.*1 entries.*2 w)) ∧
  (migrationsFile w = None →
     readMigrations w = ∅ ∧ ∀ i, (run env w).2 ≠ Err (AlreadySentError i)).
Proof.
  intros Hread.
  assert (Hpass : truthy (SKIP_MIGRATION_VALIDATION env) = true ∨
                  readMigrations w !! id data = None →
                  alreadySent (readMigrations w) (id data)
                    && negb (truthy (SKIP_MIGRATION_VALIDATION env)) = false).
  { intros [->|Hnone]; [by rewrite andb_false_r|].
    unfold alreadySent. by rewrite Hnone. }
  assert (Hgo : truthy (SKIP_MIGRATION_VALIDATION env) = true ∨
                readMigrations w !! id data = None →
                ∀ i, (run env w).2 ≠ Err (AlreadySentError i)).
  { intros Hcase i. specialize (Hpass Hcase). unfold main. rewrite Hread, Hpass.
    destruct (shouldSendTxn env && _); [done|].
    destruct (getValues env) as [address|e] eqn:Hvalues.
    - destruct (shouldSendTxn env); [|done].
      intros He. apply sendDistribution_error in He as [?|(? & ? & ?)]; done.
    - unfold getValues in Hvalues. destruct (String.eqb _ _); [done|].
      injection Hvalues as <-. done. }
  split; [|split].
  - intros timestamp Hentry Hnonzero Hskip.
    unfold main. rewrite Hread. unfold alreadySent. rewrite Hentry, Hskip.
    apply Z.eqb_neq in Hnonzero. by rewrite Hnonzero.
  - intros Hcase. split; [by apply Hgo|].
    intros Hwrite Hkey Hnet. unfold main.
    rewrite Hread, (Hpass Hcase), Hwrite, Hkey. simpl.
    unfold getValues. rewrite Hnet. done.
  - intros Hmissing.
    assert (readMigrations w = ∅) as Hempty by (unfold readMigrations; by rewrite Hmissing).
    split; [done|]. apply Hgo. right. by rewrite Hempty.
Qed.

(** In dry-run mode the loop succeeds as soon as the chain accepts the
    simulation of every batch, and it leaves the chain as it was. *)
Lemma sendBatches_dry_run env data recipients amounts batchSize froms (w : World Chain) :
  truthy (DRY_RUN env) = true →
  (∀ from, from ∈ froms →
     callStatic_sendAndEmit (token data)
       (batchAt batchSize recipients amounts from).1.2
       (batchAt batchSize recipients amounts from).2
       (distributionTypeId data) (chain w) = true) →
  (sendBatches env data recipients amounts batchSize ∅ froms w).2 = Ok ().
Proof.
  intros Hdry. revert w. induction froms as [|from froms IH]; intros w Hsim; simpl; [done|].
  rewrite checkRecipients_empty, Hdry.
  pose proof (Hsim from) as Hfrom. simpl in Hfrom. rewrite Hfrom by by left.
  apply IH. intros from' Hin. apply Hsim. by right.
Qed.




(** C10. A dry run in write mode marks the distribution complete: with the
    file read, the ledger check passed, a key on a supported network, the
    approval (if one is needed) accepted and the simulation of every batch
    accepted, the run succeeds without sending a single batch transaction
    and rewrites the ledger file with the distribution id set to the
    time of the clock in seconds, the very file a successful run sending
    the batches leaves; from then on, the clock being past its first
    second, a run on the same file without the override stops with
    [AlreadySentError]. *)
Theorem C10_dry_run_marks_complete env (w : World Chain) data entries name :
  readFile env w = Ok (data, entries, name) →
  shouldSendTxn env = true →
  truthy (DRY_RUN env) = true →
  truthy (BATCH_SENDER_KEY env) = true →
  networkName env = "arbitrum"%string →
  alreadySent (readMigrations w) (id data) = false ∨
    truthy (SKIP_MIGRATION_VALIDATION env) = true →
  (allowance (token data) (chain w) < bn_sum entries.*2 →
   is_Some (approve (token data) (bn_sum entries.*2) (chain w))) →
  (∀ c from,
     (if bool_decide (allowance (token data) (chain w) < bn_sum entries.*2)
      then approve (token data) (bn_sum entries.*2) (chain w) = Some c
      else c = chain w) →
     from ∈ range 0 (length entries.*2) 150 →
     callStatic_sendAndEmit (token data)
       (batchAt 150 entries.*1 entries.*2 from).1.2
       (batchAt 150 entries.*1 entries.*2 from).2
       (distributionTypeId data) c = true) →
  let r := run env w in
  r.2 = Ok () ∧
  migrationsFile r.1 = Some (<[id data := clock w `div` 1000]> (readMigrations w)) ∧
  (∀ evs ev, log r.1 = log w ++ evs → ev ∈ evs → isBatchTransaction ev = false) ∧
  (∀ env2, FILENAME env2 = FILENAME env → shouldSendTxn env2 = true →
           truthy (DRY_RUN env2) = false → (run env2 w).2 = Ok () →
           migrationsFile (run env2 w).1 = migrationsFile r.1) ∧
  (1000 ≤ clock w →
   ∀ env', FILENAME env' = FILENAME env →
           truthy (SKIP_MIGRATION_VALIDATION env') = false →
           run env' r.1 = (r.1, Err (AlreadySentError (id data)))).
Proof.
  intros Hread Hwrite Hdry Hkey Hnet Hcheck Happrove Hsim r.
  assert (Hrun : run env w
                 = sendDistribution env data (readMigrations w) entries.*1 entries.*2 w).
  { unfold main. rewrite Hread, Hwrite, Hkey. unfold getValues. rewrite Hnet.
    by destruct Hcheck as [->| ->]; [|rewrite andb_false_r]. }
  assert (Hok : r.2 = Ok ()).
  { subst r. rewrite Hrun. unfold sendDistribution, ensureAllowance.
    case_bool_decide as Hlow.
    - destruct (Happrove Hlow) as [c Hc]. rewrite Hc.
      set (w1 := setChain c _).
      pose proof (sendBatches_dry_run env data entries.*1 entries.*2 150%nat
                    (range 0 (length entries.*2) 150) w1 Hdry) as Hloop.
      destruct (sendBatches _ _ _ _ _ _ _ _) as [w2 res]. simpl in Hloop.
      rewrite Hloop; [done|]. intros from Hin.
      apply Hsim; [exact Hc|done].
    - set (w1 := logEvent _ w).
      pose proof (sendBatches_dry_run env data entries.*1 entries.*2 150%nat
                    (range 0 (length entries.*2) 150) w1 Hdry) as Hloop.
      destruct (sendBatches _ _ _ _ _ _ _ _) as [w2 res]. simpl in Hloop.
      rewrite Hloop; [done|]. intros from Hin.
      apply Hsim; [reflexivity|done]. }
  pose proof (sendDistribution_spec env data (readMigrations w) entries.*1 entries.*2 w)
    as (batchEvs & Hlog & Hclock & Hdist & Hkind & Hres).
  rewrite <- Hrun in Hlog, Hclock, Hdist, Hres. fold r in Hlog, Hclock, Hdist, Hres.
  rewrite Hok in Hres. destruct Hres as (Hfile & _ & _).
  split; [done|]. split; [done|]. split; [|split].
  - intros evs ev Hevs Hin. rewrite Hlog in Hevs. apply app_inv_head in Hevs as <-.
    apply elem_of_cons in Hin as [->|Hin]; [done|].
    apply elem_of_app in Hin as [Hin|Hin].
    + case_bool_decide; [|by apply elem_of_nil in Hin].
      by apply list_elem_of_singleton in Hin as ->.
    + rewrite Forall_forall in Hkind. destruct (Hkind _ Hin) as [_ ->]. by rewrite Hdry.
  - intros env2 Hname Hwrite2 _ Hok2. rewrite Hfile.
    destruct (main_cases env2 w)
      as [(e & Hrun2 & _)|[[_ Hro]|(data2 & entries2 & name2 & Hread2 & _ & _ & _ & _ & Hrun2)]].
    + by rewrite Hrun2 in Hok2.
    + congruence.
    + rewrite (readFile_ext env env2 w w Hname eq_refl), Hread in Hread2.
      assert (data2 = data ∧ entries2 = entries) as [-> ->] by (split; congruence).
      pose proof (sendDistribution_spec env2 data (readMigrations w) entries.*1 entries.*2 w)
        as (? & _ & _ & _ & _ & Hres2).
      rewrite <- Hrun2 in Hres2. rewrite Hok2 in Hres2. by destruct Hres2 as (-> & _).
  - intros Hclock1 env' Hname Hskip. unfold main.
    rewrite (readFile_ext env env' w r.1 Hname Hdist), Hread.
    unfold readMigrations at 1. rewrite Hfile.
    unfold alreadySent. rewrite lookup_insert_eq, Hskip.
    assert (clock w `div` 1000 ≠ 0) as Hts.
    { pose proof (Z.div_le_mono 1000 (clock w) 1000 ltac:(lia) Hclock1) as Hdiv.
      rewrite Z.div_same in Hdiv by lia. lia. }
    apply Z.eqb_neq in Hts. by rewrite Hts.
Qed.

(** The batch calls of a run are the first batches of the distribution,
    in order; a successful run in write mode has called them all. *)
Lemma main_batch_calls env (w : World Chain) data entries name :
  readFile env w = Ok (data, entries, name) →
  ∃ evs remaining,
    log (run env w).1 = log w ++ evs ∧
    omap batchOf evs ++ remaining = mainBatches 150 entries.*1 entries.*2 ∧
    ((run env w).2 = Ok () → shouldSendTxn env = true → remaining = []).
Proof.
  intros Hread.
  destruct (main_cases env w)
    as [(e & Hrun & _)|[[Hrun Hro]|(data' & entries' & name' & Hread' & _ & _ & _ & _ & Hrun)]].
  - exists [], (mainBatches 150 entries.*1 entries.*2). rewrite Hrun. simpl.
    by rewrite app_nil_r.
  - exists [], (mainBatches 150 entries.*1 entries.*2). rewrite Hrun. simpl.
    rewrite app_nil_r. repeat split; try done. congruence.
  - assert (data' = data) as -> by congruence.
    assert (entries' = entries) as -> by congruence.
    destruct (sendDistribution_spec env data (readMigrations w) entries.*1 entries.*2 w)
      as (batchEvs & Hlog & _ & _ & _ & Hres).
    rewrite <- Hrun in Hlog, Hres.
    assert (∀ evs : list (Event Chain),
              omap batchOf
                ((if bool_decide (allowance (token data) (chain w) < bn_sum entries.*2)
                  then [EvApprove (chain w) (token data) (bn_sum entries.*2)] else [])
                 ++ evs)
              = omap batchOf evs) as Hskip.
    { intros evs. by case_bool_decide. }
    eexists. destruct ((run env w).2) as [[]|e].
    + exists []. split; [exact Hlog|]. csimpl. rewrite Hskip, app_nil_r.
      destruct Hres as (_ & Hbatches & _).
      split; [by apply batchOf_omap|done].
    + destruct Hres as [_ [(_ & -> & _)|(evs' & ev & visited & from & rest & -> & Hrange
                                          & Hvisited & Hev & _)]].
      * exists (mainBatches 150 entries.*1 entries.*2).
        split; [exact Hlog|]. csimpl. rewrite Hskip. done.
      * exists (batchAt 150 entries.*1 entries.*2 <$> rest).
        split; [exact Hlog|]. split; [|done].
        csimpl. rewrite Hskip.
        rewrite omap_app. csimpl. rewrite Hev. csimpl.
        rewrite (batchOf_omap evs' (batchAt 150 entries.*1 entries.*2 <$> visited))
          by (rewrite Hvisited, <- list_fmap_compose; reflexivity).
        unfold mainBatches. rewrite Hrange, fmap_app, <- app_assoc. reflexivity.
Qed.


(** C7, as the code has it.  The batch calls of a run, whose batch size is
    150: the [i]-th call is for the entries from [i * 150] on, 150 of them
    at most, in their order; a successful run in write mode has called, in
    this order, batches that glued together are the pair list, three of
    150, 150 and 1 entries for 301 entries.  [getBatchSenderCalldata], for
    a positive batch size, holds one key for every such batch and no
    other, with the encoding of the same slices. *)
Theorem C7_contiguous_batches (entries : list (string * Z)) :
  (∀ env (w : World Chain) data name,
     readFile env w = Ok (data, entries, name) →
     ∃ evs,
       log (run env w).1 = log w ++ evs ∧
       (∀ i from to recipients amounts,
          omap batchOf evs !! i = Some (from, to, recipients, amounts) →
          from = (i * 150)%nat ∧
          to = Nat.min (i * 150 + 150) (length entries) ∧
          recipients = (take 150 (drop (i * 150) entries)).*1 ∧
          amounts = (take 150 (drop (i * 150) entries)).*2 ∧
          zip recipients amounts = take 150 (drop (i * 150) entries) ∧
          (length recipients ≤ 150)%nat) ∧
       (shouldSendTxn env = true → (run env w).2 = Ok () →
        concat ((λ batch : nat * nat * list string * list Z, zip batch.1.2 batch.2)
                  <$> omap batchOf evs) = entries ∧
        length (omap batchOf evs) = ((length entries + 149) / 150)%nat ∧
        (length entries = 301%nat →
         (λ batch : nat * nat * list string * list Z, length batch.1.2)
           <$> omap batchOf evs = [150; 150; 1]%nat))) ∧
  (∀ encode tokenAddress typeId (batchSize : nat),
     (0 < batchSize)%nat →
     let calldata :=
       getBatchSenderCalldata encode tokenAddress entries.*1 entries.*2 typeId batchSize in
     let batch (i : nat) := take batchSize (drop (i * batchSize) entries) in
     (∀ from last,
        is_Some (calldata !! (from, last)) ↔
        ∃ i, from = (i * batchSize)%nat ∧ (from < length entries)%nat ∧
             last = Z.of_nat (Nat.min (from + batchSize) (length entries)) - 1) ∧
     (∀ i, (i * batchSize < length entries)%nat →
        calldata !! ((i * batchSize)%nat,
                     Z.of_nat (Nat.min (i * batchSize + batchSize) (length entries)) - 1)
        = Some (encode tokenAddress (batch i).*1 (batch i).*2 typeId) ∧
        (length (batch i) ≤ batchSize)%nat) ∧
     concat (batch <$> seq 0 ((length entries + batchSize - 1) / batchSize)) = entries).
Proof.
  split.
  - intros env w data name Hread.
    destruct (main_batch_calls env w data entries name Hread)
      as (evs & remaining & Hlog & Hbatches & Hall).
    exists evs. split; [exact Hlog|]. split.
    + intros i from to recipients amounts Hi.
      assert (mainBatches 150 entries.*1 entries.*2 !! i
              = Some (from, to, recipients, amounts)) as Hbatch.
      { rewrite <- Hbatches. by apply lookup_app_l_Some. }
      apply mainBatches_lookup in Hbatch. injection Hbatch as -> -> -> ->.
      repeat split; try done.
      * apply zip_fst_snd.
      * rewrite length_fmap, length_take. lia.
    + intros Hsend Hok. rewrite (Hall Hok Hsend), app_nil_r in Hbatches.
      rewrite Hbatches. split; [|split].
      * rewrite mainBatches_pairs, range_from_zero by lia.
        rewrite <- list_fmap_compose.
        apply (concat_chunks 150). apply range_covers. lia.
      * unfold mainBatches. rewrite range_from_zero by lia.
        rewrite !length_fmap, length_seq. f_equal. lia.
      * intros Hlen. unfold mainBatches. rewrite range_from_zero by lia.
        rewrite <- !list_fmap_compose, !length_fmap, Hlen. simpl.
        unfold slice. rewrite !length_take, !length_drop, !length_fmap, Hlen. done.
  - intros encode tokenAddress typeId batchSize Hsize calldata batch.
    pose proof (Nat.div_mod_eq (length entries + batchSize - 1) batchSize) as Hdiv.
    pose proof (Nat.mod_upper_bound (length entries + batchSize - 1) batchSize) as Hmod.
    split; [|split].
    + intros from last. subst calldata. unfold getBatchSenderCalldata.
      rewrite (foldl_insert_is_Some
                 (λ from, (from, Z.of_nat (Nat.min (from + batchSize) (length entries.*2)) - 1))
                 (λ from, encode tokenAddress (slice from (from + batchSize) entries.*1)
                            (slice from (from + batchSize) entries.*2) typeId)).
      rewrite lookup_empty, range_from_zero, !length_fmap by done. split.
      * intros [[? ?]|(x & Hin & [= <- <-])]; [done|].
        apply list_elem_of_fmap in Hin as (i & -> & Hi%elem_of_seq).
        exists i. split; [done|]. split; [nia|done].
      * intros (i & -> & Hi & ->). right. exists (i * batchSize)%nat. split; [|done].
        apply list_elem_of_fmap. exists i. split; [done|].
        apply elem_of_seq. nia.
    + intros i Hi. split; [|subst batch; simpl; rewrite length_take; lia].
      subst calldata batch. unfold getBatchSenderCalldata. simpl.
      rewrite !fmap_take, !fmap_drop, <- !slice_unclamped.
      rewrite <- (length_fmap snd entries).
      apply (foldl_insert_lookup
               (λ from, (from, Z.of_nat (Nat.min (from + batchSize) (length entries.*2)) - 1))
               (λ from, encode tokenAddress (slice from (from + batchSize) entries.*1)
                          (slice from (from + batchSize) entries.*2) typeId)).
      * by intros a b [= ->].
      * apply range_elem; [done|]. by rewrite length_fmap.
    + apply (concat_chunks batchSize). by apply range_covers.
Qed.

End RunProps.

Import BatchSendSamples.

(** C7 on 301 entries of one unit: the run calls three batches, of 150,
    150 and 1 entries, which glued together are the entries; the calldata
    by 150 has a key for the third batch, [300-300]. *)
Lemma C7_contiguous_batches_witness :
  let w := worldOf (unitDistribution 301) None 301 in
  ∃ evs,
    log (@main Z erc20 distributionTypeName liveEnv w).1 = evs ∧
    concat ((λ batch : nat * nat * list string * list Z, zip batch.1.2 batch.2)
              <$> omap batchOf evs) = unitEntries 301 ∧
    (λ batch : nat * nat * list string * list Z, length batch.1.2)
      <$> omap batchOf evs = [150; 150; 1]%nat ∧
    is_Some (getBatchSenderCalldata joinRecipients ARB (unitEntries 301).*1
               (unitEntries 301).*2 1001 150 !! (300%nat, 300)).
Proof.
  intros w.
  destruct (@C7_contiguous_batches Z erc20 distributionTypeName (unitEntries 301))
    as [Hrun Hcalldata].
  destruct (Hrun liveEnv w (unitDistribution 301) "STIP LP"%string eq_refl)
    as (evs & Hlog & _ & Hall).
  destruct Hall as (Hconcat & _ & Hsizes); [reflexivity | by vm_compute |].
  exists evs. split; [exact Hlog|]. split; [exact Hconcat|].
  split; [apply Hsizes; reflexivity|].
  destruct (Hcalldata joinRecipients ARB 1001 150%nat) as (Hkeys & _); [lia|].
  apply Hkeys. exists 2%nat. split; [reflexivity|].
  unfold unitEntries. rewrite length_fmap, length_seq. split; [lia|reflexivity].
Defined.

(** C7 as stated fails for a batch size of zero: on two entries
    [getBatchSenderCalldata] returns one key, [0--1], with the encoding of
    two empty slices; no entry is in a batch. *)
Lemma C7_counterexample :
  getBatchSenderCalldata joinRecipients ARB
    [recipientName 0; recipientName 1] [1; 2] 1001 0
  = {[ (0%nat, -1) := joinRecipients ARB [] [] 1001 ]} ∧
  joinRecipients ARB [] [] 1001
  ≠ joinRecipients ARB [recipientName 0; recipientName 1] [1; 2] 1001.
Proof. split; [by vm_compute|]. vm_compute. discriminate. Qed.



(** C2 as stated fails when the allowance is shared.  151 recipients of
    one unit, an allowance of exactly 151, and a second sender that spends
    one unit of it while the first batch is mined: the allowance is read
    once and found sufficient, the first batch leaves an allowance of 0,
    and the second batch, of one unit, is sent without any reading or
    approval in between; it is rejected and the run aborts. *)
Lemma C2_counterexample :
  let w := worldOf (unitDistribution 151) None 151 in
  let r := @main Z (contended 1) distributionTypeName liveEnv w in
  let recipients := (unitEntries 151).*1 in
  let amounts := (unitEntries 151).*2 in
  log r.1 = [EvAllowance 151 ARB;
             EvSendAndEmit 151 0 150 (take 150 recipients) (take 150 amounts);
             EvSendAndEmit 0 150 151 (drop 150 recipients) (drop 150 amounts)] ∧
  @allowance Z (contended 1) ARB 0 < bn_sum (drop 150 amounts) ∧
  r.2 = Err (SubmissionError 150 151).
Proof. by vm_compute. Qed.

(** C2 (amended) on 151 recipients with an allowance of 100 on the
    ERC-20 chain: one reading, one approval of 151, then batch calls, each
    made with an allowance that covers what is left. *)
Lemma C2_allowance_ensured_once_witness :
  let w := worldOf (unitDistribution 151) None 100 in
  let r := @main Z erc20 distributionTypeName liveEnv w in
  (∃ batchEvs,
     log r.1 = EvAllowance 100 ARB :: EvApprove 100 ARB 151 :: batchEvs ∧
     Forall (λ ev, isBatchEvent ev = true) batchEvs) ∧
  Forall (@allowanceCovers Z erc20 (unitDistribution 151) (unitEntries 151).*2) (log r.1).
Proof.
  intros w r.
  destruct (@C2_allowance_ensured_once Z erc20 distributionTypeName liveEnv w)
    as [[Hsame|(data & entries & name & batchEvs & Hread & Hlog & Hall & _)] Hcovers].
  - apply (f_equal log) in Hsame. vm_compute in Hsame. discriminate.
  - split.
    + exists batchEvs. split; [|exact Hall]. fold r in Hlog. rewrite Hlog.
      assert (data = unitDistribution 151 ∧ entries = unitEntries 151) as [-> ->].
      { assert (readDistributionFile distributionTypeName liveEnv w
                = Ok (unitDistribution 151, unitEntries 151, "STIP LP"%string)) as Hread'
          by reflexivity.
        rewrite Hread' in Hread. split; congruence. }
      reflexivity.
    + apply (Hcovers (unitDistribution 151) (unitEntries 151) "STIP LP"%string).
      * reflexivity.
      * intros token amount c c'. simpl. congruence.
      * intros token rs amts typeId c c'. simpl.
        destruct (covered amts c); [|done]. by intros [= <-].
      * left. reflexivity.
      * reflexivity.
Defined.

(** C8 on a ledger holding the id of the file: the run stops, unless the
    override is set; without a ledger file it goes on. *)
Lemma C8_ledger_check_witness :
  let w := worldOf (unitDistribution 3) (Some {[ 7 := 1697000000 ]}) 10 in
  @main Z erc20 distributionTypeName liveEnv w = (w, Err (AlreadySentError 7)) ∧
  (∀ i, (@main Z erc20 distributionTypeName overrideEnv w).2 ≠ Err (AlreadySentError i)) ∧
  (∀ i, (@main Z erc20 distributionTypeName liveEnv
           (worldOf (unitDistribution 3) None 10)).2 ≠ Err (AlreadySentError i)).
Proof.
  intros w. split; [|split].
  - destruct (@C8_ledger_check Z erc20 distributionTypeName liveEnv w
                (unitDistribution 3) (unitEntries 3) "STIP LP"%string eq_refl)
      as (Hstop & _ & _).
    apply (Hstop 1697000000); [reflexivity | lia | reflexivity].
  - destruct (@C8_ledger_check Z erc20 distributionTypeName overrideEnv w
                (unitDistribution 3) (unitEntries 3) "STIP LP"%string eq_refl)
      as (_ & Hgo & _).
    apply Hgo. left. reflexivity.
  - destruct (@C8_ledger_check Z erc20 distributionTypeName liveEnv
                (worldOf (unitDistribution 3) None 10)
                (unitDistribution 3) (unitEntries 3) "STIP LP"%string eq_refl)
      as (_ & _ & Hmissing).
    apply Hmissing. reflexivity.
Defined.


(** C10 on 151 recipients with an allowance of 200: the dry run succeeds,
    writes the ledger, and the next run without override is refused. *)
Lemma C10_dry_run_marks_complete_witness :
  let w := worldOf (unitDistribution 151) None 200 in
  let r := @main Z erc20 distributionTypeName dryRunEnv w in
  r.2 = Ok () ∧
  migrationsFile r.1 = Some {[ 7 := 1697626800 ]} ∧
  @main Z erc20 distributionTypeName liveEnv r.1 = (r.1, Err (AlreadySentError 7)).
Proof.
  intros w r.
  destruct (@C10_dry_run_marks_complete Z erc20 distributionTypeName dryRunEnv w
              (unitDistribution 151) (unitEntries 151) "STIP LP"%string)
    as (Hok & Hfile & _ & _ & Hnext).
  - reflexivity.
  - reflexivity.
  - reflexivity.
  - reflexivity.
  - reflexivity.
  - left. reflexivity.
  - intros Hlow. exfalso. vm_compute in Hlow. discriminate.
  - intros c from Hc Hfrom.
    rewrite bool_decide_eq_false_2 in Hc by (vm_compute; congruence). subst c.
    assert (from = 0 ∨ from = 150)%nat as [-> | ->].
    { vm_compute in Hfrom.
      apply elem_of_cons in Hfrom as [->|Hfrom]; [by left|].
      apply elem_of_cons in Hfrom as [->|Hfrom]; [by right|].
      by apply elem_of_nil in Hfrom. }
    + by vm_compute.
    + by vm_compute.
  - split; [exact Hok|]. split; [exact Hfile|].
    apply Hnext; [by vm_compute | reflexivity | reflexivity].
Defined.

End BatchSendSpec.

(** Closed equations between results holding maps are settled by
    evaluating both sides. *)
Ltac compute_eq :=
  lazymatch goal with
  | |- @eq ?T _ ?r => vm_cast_no_check (@eq_refl T r)
  end.

(** ** The balances request *)

Module BalancesSpec.
Import Balances.

Section RequestProps.

Context (getAddress : string → option string).

(** The stats of a market for an account, under [getAddress]. *)
Local Abbreviation statFor market account := (λ lpStat : LpStat,
  lpMarketAddress lpStat = market ∧ getAddress (lpAccount lpStat) = Some account).

Local Abbreviation infoFor market account := (λ info : UserMarketInfo,
  infoMarketAddress info = market ∧ getAddress (infoAccount info) = Some account).

Lemma collectStats_other market stats ub ub' account :
  collectStats getAddress market stats ub = Ok ub' →
  (∀ lpStat, lpStat ∈ stats → ¬ statFor market account lpStat) →
  ub' !! account = ub !! account.
Proof.
  revert ub. induction stats as [|lpStat stats IH]; intros ub; simpl.
  - by intros [= <-].
  - intros Hloop Hnone.
    assert (∀ x, x ∈ stats → ¬ statFor market account x) as Hrest.
    { intros x Hx. apply Hnone. by right. }
    destruct (String.eqb _ _) eqn:Hmarket; [|by apply IH].
    apply String.eqb_eq in Hmarket.
    destruct (getAddress (lpAccount lpStat)) as [a|] eqn:Ha; [|done].
    rewrite (IH _ Hloop Hrest). apply lookup_insert_ne.
    intros ->. apply (Hnone lpStat); [by left|done].
Qed.

Lemma collectStats_some market stats ub ub' account :
  collectStats getAddress market stats ub = Ok ub' →
  (∃ lpStat, lpStat ∈ stats ∧ statFor market account lpStat) →
  ∃ lpStat, lpStat ∈ stats ∧ statFor market account lpStat ∧
            ub' !! account = Some (weightedAverageMarketTokensBalance lpStat).
Proof.
  revert ub. induction stats as [|lpStat stats IH]; intros ub; simpl.
  - intros _ (x & Hx & _). by apply elem_of_nil in Hx.
  - intros Hloop (x & Hx & Hfor).
    destruct (decide (Exists (statFor market account) stats)) as [Hlater|Hnone].
    + apply Exists_exists in Hlater.
      assert (∃ ub1, collectStats getAddress market stats ub1 = Ok ub') as [ub1 Hrest].
      { destruct (String.eqb _ _); [|eauto].
        destruct (getAddress (lpAccount lpStat)); [eauto|done]. }
      destruct (IH _ Hrest Hlater) as (y & Hy & Hyfor & Hlookup).
      exists y. split; [by right|done].
    + assert (∀ y, y ∈ stats → ¬ statFor market account y) as Hnone'.
      { intros y Hy Hyfor. apply Hnone, Exists_exists. eauto. }
      apply elem_of_cons in Hx as [->|Hx]; [|by destruct (Hnone' x Hx)].
      destruct Hfor as [Hmarket Ha]. apply String.eqb_eq in Hmarket.
      rewrite Hmarket, Ha in Hloop.
      exists lpStat. split; [by left|]. split; [by apply String.eqb_eq in Hmarket|].
      rewrite (collectStats_other _ _ _ _ _ Hloop Hnone'). apply lookup_insert_eq.
Qed.

Lemma collectInfos_keep market infos ub ub' account b :
  collectInfos getAddress market infos ub = Ok ub' →
  ub !! account = Some b → ub' !! account = Some b.
Proof.
  revert ub. induction infos as [|info infos IH]; intros ub; simpl.
  - by intros [= <-].
  - intros Hloop Hb.
    destruct (negb _); [by eapply IH|].
    destruct (getAddress (infoAccount info)) as [a|]; [|done].
    destruct (ub !! a) eqn:Ha; [by eapply IH|].
    destruct (marketTokensBalance info =? 0); [by eapply IH|].
    eapply IH; [done|]. rewrite lookup_insert_ne; [done|]. congruence.
Qed.

Lemma collectInfos_new market infos ub ub' account b :
  collectInfos getAddress market infos ub = Ok ub' →
  ub !! account = None → ub' !! account = Some b →
  b ≠ 0 ∧ ∃ info, info ∈ infos ∧ infoFor market account info ∧
                  marketTokensBalance info = b.
Proof.
  revert ub. induction infos as [|info infos IH]; intros ub; simpl.
  - intros [= <-] Hnone Hb. congruence.
  - intros Hloop Hnone Hb.
    assert (∀ ub1, collectInfos getAddress market infos ub1 = Ok ub' →
                   ub1 !! account = None →
                   b ≠ 0 ∧ ∃ x, x ∈ info :: infos ∧ infoFor market account x ∧
                                marketTokensBalance x = b) as Hrest.
    { intros ub1 H1 H2. destruct (IH _ H1 H2 Hb) as (? & x & ? & ?).
      split; [done|]. exists x. split; [by right|done]. }
    destruct (String.eqb _ _) eqn:Hmarket; simpl in Hloop; [|by eapply Hrest].
    apply String.eqb_eq in Hmarket.
    destruct (getAddress (infoAccount info)) as [a|] eqn:Ha; [|done].
    destruct (ub !! a) eqn:Hub; [by eapply Hrest|].
    destruct (marketTokensBalance info =? 0) eqn:Hzero; [by eapply Hrest|].
    apply Z.eqb_neq in Hzero.
    destruct (decide (a = account)) as [->|Hne].
    + pose proof (collectInfos_keep _ _ _ _ account _ Hloop (lookup_insert_eq _ _ _)) as Hkept.
      assert (b = marketTokensBalance info) as -> by congruence.
      split; [done|]. exists info. split; [by left|done].
    + eapply Hrest; [done|]. by rewrite lookup_insert_ne.
Qed.

Lemma collectInfos_first market infos ub ub' account :
  collectInfos getAddress market infos ub = Ok ub' →
  (∃ info, info ∈ infos ∧ infoFor market account info ∧ marketTokensBalance info ≠ 0) →
  is_Some (ub' !! account).
Proof.
  revert ub. induction infos as [|info infos IH]; intros ub; simpl.
  - intros _ (x & Hx & _). by apply elem_of_nil in Hx.
  - intros Hloop (x & Hx & [Hxm Hxa] & Hxb).
    destruct (ub !! account) as [b|] eqn:Hub.
    { assert (∃ ub1, collectInfos getAddress market (info :: infos) ub = Ok ub')
        as _ by eauto.
      exists b. eapply (collectInfos_keep market (info :: infos)); [exact Hloop|done]. }
    apply elem_of_cons in Hx as [->|Hx].
    + apply String.eqb_eq in Hxm. rewrite Hxm, Hxa, Hub in Hloop. simpl in Hloop.
      apply Z.eqb_neq in Hxb. rewrite Hxb in Hloop.
      exists (marketTokensBalance info).
      eapply collectInfos_keep; [exact Hloop|apply lookup_insert_eq].
    + assert (∃ ub1, collectInfos getAddress market infos ub1 = Ok ub') as [ub1 Hrest].
      { destruct (negb _); [eauto|].
        destruct (getAddress (infoAccount info)) as [a|]; [|done].
        destruct (ub !! a); [eauto|].
        destruct (marketTokensBalance info =? 0); eauto. }
      apply (IH _ Hrest). exists x. eauto.
Qed.

(** X2. Weighted balances come first: in the user balances built for a
    market, an account with a stat of the period for that market holds the
    weighted balance of such a stat, whatever its current balance; an
    account without one holds a current balance, which is never zero, and
    it does hold one as soon as one of its current balances for the market
    is not zero. *)
Theorem marketEntry_balances response marketInfo key data account :
  marketEntry getAddress response marketInfo = Ok (key, data) →
  ((∃ lpStat, lpStat ∈ liquidityProviderIncentivesStats response ∧
              statFor (marketToken marketInfo) account lpStat) →
   ∃ lpStat, lpStat ∈ liquidityProviderIncentivesStats response ∧
             statFor (marketToken marketInfo) account lpStat ∧
             Incentives.userBalances data !! account
               = Some (weightedAverageMarketTokensBalance lpStat)) ∧
  ((∀ lpStat, lpStat ∈ liquidityProviderIncentivesStats response →
              ¬ statFor (marketToken marketInfo) account lpStat) →
   (∀ b, Incentives.userBalances data !! account = Some b →
         b ≠ 0 ∧ ∃ info, info ∈ userMarketInfos response ∧
                         infoFor (marketToken marketInfo) account info ∧
                         marketTokensBalance info = b) ∧
   ((∃ info, info ∈ userMarketInfos response ∧
             infoFor (marketToken marketInfo) account info ∧
             marketTokensBalance info ≠ 0) →
    is_Some (Incentives.userBalances data !! account))).
Proof.
  unfold marketEntry.
  destruct (collectStats _ _ _ _) as [ub|e] eqn:Hstats; [|done].
  destruct (collectInfos _ _ _ _) as [ub'|e] eqn:Hinfos; [|done].
  destruct (getAddress (marketToken marketInfo)); [|done].
  intros [= <- <-]. simpl. split.
  - intros Hsome.
    destruct (collectStats_some _ _ _ _ _ Hstats Hsome) as (lpStat & Hin & Hfor & Hlookup).
    exists lpStat. repeat split; try done; try apply Hfor.
    by eapply collectInfos_keep.
  - intros Hnone.
    pose proof (collectStats_other _ _ _ _ _ Hstats Hnone) as Hub.
    rewrite lookup_empty in Hub. split.
    + intros b Hb. by eapply collectInfos_new.
    + by eapply collectInfos_first.
Qed.

(** X3. The supply of a market is the weighted supply of the first stat
    of the period recorded for it, zero included, and the current supply
    only when there is no such stat; the key of the market is its
    address as [getAddress] spells it. *)
Theorem marketEntry_supply response marketInfo key data :
  marketEntry getAddress response marketInfo = Ok (key, data) →
  getAddress (marketToken marketInfo) = Some key ∧
  ((∀ marketStat, marketStat ∈ marketIncentivesStats response →
                  statMarketAddress marketStat ≠ marketToken marketInfo) →
   Incentives.marketTokensSupply data = marketTokensSupply marketInfo) ∧
  (∀ before marketStat after,
     marketIncentivesStats response = before ++ marketStat :: after →
     (∀ other, other ∈ before → statMarketAddress other ≠ marketToken marketInfo) →
     statMarketAddress marketStat = marketToken marketInfo →
     Incentives.marketTokensSupply data = weightedAverageMarketTokensSupply marketStat).
Proof.
  unfold marketEntry.
  destruct (collectStats _ _ _ _) as [ub|e]; [|done].
  destruct (collectInfos _ _ _ _) as [ub'|e]; [|done].
  destruct (getAddress (marketToken marketInfo)) as [address|]; [|done].
  intros [= <- <-]. simpl. split; [done|]. unfold supplyOf. split.
  - intros Hnone.
    destruct (List.find _ _) as [marketStat|] eqn:Hfind; [|done].
    apply find_some in Hfind as [Hin Heq]. apply String.eqb_eq in Heq.
    apply list_elem_of_In in Hin. by destruct (Hnone _ Hin).
  - intros before marketStat after -> Hbefore Hmatch.
    induction before as [|other before IH]; simpl.
    + apply String.eqb_eq in Hmatch. by rewrite Hmatch.
    + assert (String.eqb (statMarketAddress other) (marketToken marketInfo) = false)
        as ->.
      { apply String.eqb_neq, Hbefore. by left. }
      apply IH. intros x Hx. apply Hbefore. by right.
Qed.

Lemma collectStats_runs market stats ub :
  (∀ lpStat, lpStat ∈ stats → is_Some (getAddress (lpAccount lpStat))) →
  ∃ ub', collectStats getAddress market stats ub = Ok ub'.
Proof.
  revert ub. induction stats as [|lpStat stats IH]; intros ub Hvalid; simpl; [eauto|].
  assert (∀ x, x ∈ stats → is_Some (getAddress (lpAccount x))) as Hrest.
  { intros x Hx. apply Hvalid. by right. }
  destruct (String.eqb _ _); [|by apply IH].
  destruct (Hvalid lpStat) as [a ->]; [by left|]. by apply IH.
Qed.

Lemma collectStats_error market stats ub e :
  collectStats getAddress market stats ub = Err e →
  ∃ address, e = InvalidAddressError address ∧ getAddress address = None.
Proof.
  revert ub. induction stats as [|lpStat stats IH]; intros ub; simpl; [done|].
  destruct (String.eqb _ _); [|apply IH].
  destruct (getAddress (lpAccount lpStat)) eqn:Ha; [apply IH|].
  intros [= <-]. eauto.
Qed.

Lemma collectInfos_runs market infos ub :
  (∀ info, info ∈ infos → is_Some (getAddress (infoAccount info))) →
  ∃ ub', collectInfos getAddress market infos ub = Ok ub'.
Proof.
  revert ub. induction infos as [|info infos IH]; intros ub Hvalid; simpl; [eauto|].
  assert (∀ x, x ∈ infos → is_Some (getAddress (infoAccount x))) as Hrest.
  { intros x Hx. apply Hvalid. by right. }
  destruct (negb _); [by apply IH|].
  destruct (Hvalid info) as [a ->]; [by left|].
  destruct (ub !! a); [by apply IH|].
  destruct (marketTokensBalance info =? 0); by apply IH.
Qed.

Lemma collectInfos_error market infos ub e :
  collectInfos getAddress market infos ub = Err e →
  ∃ address, e = InvalidAddressError address ∧ getAddress address = None.
Proof.
  revert ub. induction infos as [|info infos IH]; intros ub; simpl; [done|].
  destruct (negb _); [apply IH|].
  destruct (getAddress (infoAccount info)) as [a|] eqn:Ha.
  - destruct (ub !! a); [apply IH|].
    destruct (marketTokensBalance info =? 0); apply IH.
  - intros [= <-]. eauto.
Qed.

Lemma marketEntry_error response marketInfo e :
  marketEntry getAddress response marketInfo = Err e →
  ∃ address, e = InvalidAddressError address ∧ getAddress address = None.
Proof.
  unfold marketEntry.
  destruct (collectStats _ _ _ _) as [ub|e1] eqn:Hstats.
  - destruct (collectInfos _ _ _ _) as [ub'|e2] eqn:Hinfos.
    + destruct (getAddress (marketToken marketInfo)) eqn:Ha; [done|].
      intros [= <-]. eauto.
    + intros [= <-]. by eapply collectInfos_error.
  - intros [= <-]. by eapply collectStats_error.
Qed.

Lemma marketEntries_inv response infos entries :
  marketEntries getAddress response infos = Ok entries →
  Forall2 (λ marketInfo entry, marketEntry getAddress response marketInfo = Ok entry)
    infos entries.
Proof.
  revert entries. induction infos as [|marketInfo infos IH]; intros entries; simpl.
  - intros [= <-]. constructor.
  - destruct (marketEntry _ _ _) as [entry|e] eqn:Hentry; [|done].
    destruct (marketEntries _ _ _) as [rest|e]; [|done].
    intros [= <-]. constructor; [done|]. by apply IH.
Qed.

Lemma marketEntries_error response infos e :
  marketEntries getAddress response infos = Err e →
  ∃ address, e = InvalidAddressError address ∧ getAddress address = None.
Proof.
  induction infos as [|marketInfo infos IH]; simpl; [done|].
  destruct (marketEntry _ _ _) as [entry|e1] eqn:Hentry.
  - destruct (marketEntries _ _ _) as [rest|e2]; [done|].
    intros [= <-]. by apply IH.
  - intros [= <-]. by eapply marketEntry_error.
Qed.

Lemma foldl_insert_entries {V} (entries : list (string * V)) (o : gmap string V) key :
  (∀ v, foldl (λ o entry, <[entry.1 := entry.2]> o) o entries !! key = Some v →
        o !! key = Some v ∨ (key, v) ∈ entries) ∧
  (is_Some (o !! key) ∨ key ∈ entries.*1 →
   is_Some (foldl (λ o entry, <[entry.1 := entry.2]> o) o entries !! key)).
Proof.
  revert o. induction entries as [|[k v'] entries IH]; intros o; csimpl.
  - split; [by left|]. intros [?|Hin]; [done|]. by apply elem_of_nil in Hin.
  - destruct (IH (<[k := v']> o)) as [IH1 IH2]. split.
    + intros v Hv. destruct (IH1 v Hv) as [Hins|Hin]; [|right; by right].
      destruct (decide (k = key)) as [->|Hne].
      * rewrite lookup_insert_eq in Hins. injection Hins as ->. right. by left.
      * rewrite lookup_insert_ne in Hins by done. by left.
    + intros Hcase. apply IH2.
      destruct (decide (k = key)) as [->|Hne]; [left; by rewrite lookup_insert_eq|].
      rewrite lookup_insert_ne by done.
      destruct Hcase as [?|[?|?]%elem_of_cons]; [by left|congruence|by right].
Qed.

(** X4. The markets of the result are the markets of [marketInfos], keyed
    by their address as [getAddress] spells it, and each holds what the
    callback computes for a market info of that address. *)
Theorem requestBalancesData_markets response dataByMarket :
  requestBalancesData getAddress response = Ok dataByMarket →
  (∀ key, is_Some (dataByMarket !! key) ↔
          ∃ marketInfo, marketInfo ∈ marketInfos response ∧
                        getAddress (marketToken marketInfo) = Some key) ∧
  (∀ key data, dataByMarket !! key = Some data →
     ∃ marketInfo, marketInfo ∈ marketInfos response ∧
                   marketEntry getAddress response marketInfo = Ok (key, data)).
Proof.
  unfold requestBalancesData.
  destruct (_ =? _); [done|]. destruct (_ =? _); [done|].
  destruct (marketEntries _ _ _) as [entries|e] eqn:Hentries; [|done].
  intros [= <-]. apply marketEntries_inv in Hentries.
  assert (Hvalue : ∀ key data, fromEntries entries !! key = Some data →
            ∃ marketInfo, marketInfo ∈ marketInfos response ∧
                          marketEntry getAddress response marketInfo = Ok (key, data)).
  { intros key data Hlookup.
    apply (foldl_insert_entries entries ∅ key) in Hlookup as [Hempty|Hin].
    { by rewrite lookup_empty in Hempty. }
    apply list_elem_of_lookup in Hin as [i Hi].
    destruct (Forall2_lookup_r _ _ _ _ _ Hentries Hi) as (marketInfo & Hmi & Hentry).
    exists marketInfo. split; [|done]. apply list_elem_of_lookup. eauto. }
  split; [|exact Hvalue].
  intros key. split.
  - intros [data Hdata]. destruct (Hvalue _ _ Hdata) as (marketInfo & Hin & Hentry).
    exists marketInfo. split; [done|].
    by destruct (marketEntry_supply _ _ _ _ Hentry) as [? _].
  - intros (marketInfo & Hin & Hkey).
    apply (foldl_insert_entries entries ∅ key). right.
    apply list_elem_of_lookup in Hin as [i Hi].
    destruct (Forall2_lookup_l _ _ _ _ _ Hentries Hi) as ([k data] & Hentry & Hok).
    destruct (marketEntry_supply _ _ _ _ Hok) as [Hk _].
    assert (k = key) as -> by congruence.
    apply list_elem_of_fmap. exists (key, data). split; [done|].
    apply list_elem_of_lookup. eauto.
Qed.

(** X1. The failures of the request: it stops on a list of statistics, or
    after that on a list of user infos, of exactly 10000 entries, the
    limit of a page; its only other failure is an address [getAddress]
    rejects; and it succeeds when no list is of that length and every
    account and market token is an address. *)
Theorem requestBalancesData_failures response :
  (∀ field, requestBalancesData getAddress response = Err (PaginationError field) ↔
     (Z.of_nat (length (liquidityProviderIncentivesStats response)) = 10000 ∧
      field = "liquidityProviderIncentivesStats"%string) ∨
     (Z.of_nat (length (liquidityProviderIncentivesStats response)) ≠ 10000 ∧
      Z.of_nat (length (userMarketInfos response)) = 10000 ∧
      field = "userMarketInfos"%string)) ∧
  (∀ address, requestBalancesData getAddress response = Err (InvalidAddressError address) →
     getAddress address = None) ∧
  (Z.of_nat (length (liquidityProviderIncentivesStats response)) ≠ 10000 →
   Z.of_nat (length (userMarketInfos response)) ≠ 10000 →
   (∀ lpStat, lpStat ∈ liquidityProviderIncentivesStats response →
              is_Some (getAddress (lpAccount lpStat))) →
   (∀ info, info ∈ userMarketInfos response → is_Some (getAddress (infoAccount info))) →
   (∀ marketInfo, marketInfo ∈ marketInfos response →
                  is_Some (getAddress (marketToken marketInfo))) →
   ∃ dataByMarket, requestBalancesData getAddress response = Ok dataByMarket).
Proof.
  unfold requestBalancesData.
  destruct (Z.of_nat (length (liquidityProviderIncentivesStats response)) =? 10000)
    eqn:Hstats;
    [apply Z.eqb_eq in Hstats|apply Z.eqb_neq in Hstats].
  { split; [|split; [done|lia]].
    intros field. split; [intros [= <-]; by left|].
    intros [[_ ->]|[? _]]; [done|lia]. }
  destruct (Z.of_nat (length (userMarketInfos response)) =? 10000) eqn:Hinfos;
    [apply Z.eqb_eq in Hinfos|apply Z.eqb_neq in Hinfos].
  { split; [|split; [done|lia]].
    intros field. split; [intros [= <-]; by right|].
    intros [[? _]|(_ & _ & ->)]; [lia|done]. }
  split; [|split].
  - intros field. split.
    + destruct (marketEntries _ _ _) as [entries|e] eqn:Hentries; [done|].
      intros [= ->]. by apply marketEntries_error in Hentries as (? & ? & _).
    + intros [[? _]|(_ & ? & _)]; lia.
  - intros address.
    destruct (marketEntries _ _ _) as [entries|e] eqn:Hentries; [done|].
    intros [= ->]. apply marketEntries_error in Hentries as (x & Hx & Hnone). congruence.
  - intros _ _ Hlp Hinfo Hmarkets.
    assert (∃ entries, marketEntries getAddress response (marketInfos response)
                       = Ok entries) as [entries ->]; [|eauto].
    induction (marketInfos response) as [|marketInfo infos IH]; simpl; [eauto|].
    destruct IH as [rest ->]. { intros x Hx. apply Hmarkets. by right. }
    unfold marketEntry.
    destruct (collectStats_runs (marketToken marketInfo)
                (liquidityProviderIncentivesStats response) ∅ Hlp) as [ub ->].
    destruct (collectInfos_runs (marketToken marketInfo)
                (userMarketInfos response) ub Hinfo) as [ub' ->].
    destruct (Hmarkets marketInfo) as [address ->]; [by left|]. eauto.
Qed.

(** X5. The request and the computation together: a market of the
    allocation that no market info of the answer spells, under
    [getAddress], stops the computation with [NoBalancesDataError] when
    its turn comes first, and no file is written. *)
Theorem missing_market_stops_main overrideReceivers arbToken typeId
    response dataByMarket alloc market marketRewards rest :
  requestBalancesData getAddress response = Ok dataByMarket →
  Incentives.isActive alloc = true →
  Incentives.rewardsPerMarket alloc = (market, marketRewards) :: rest →
  (∀ marketInfo, marketInfo ∈ marketInfos response →
                 getAddress (marketToken marketInfo) ≠ Some market) →
  Incentives.main overrideReceivers arbToken typeId dataByMarket alloc
    = (Err (Incentives.NoBalancesDataError market), None).
Proof.
  intros Hrequest Hactive Hmarkets Hmissing.
  destruct (requestBalancesData_markets _ _ Hrequest) as [Hkeys _].
  assert (dataByMarket !! market = None) as Hnone.
  { destruct (dataByMarket !! market) eqn:Hlookup; [|done].
    destruct (proj1 (Hkeys market)) as (marketInfo & Hin & Hkey); [eauto|].
    by destruct (Hmissing _ Hin). }
  unfold Incentives.main. rewrite Hactive, Hmarkets. simpl.
  unfold Incentives.processMarket. by rewrite Hnone.
Qed.

End RequestProps.

Import BalancesSamples.

Lemma gmEth_entry : marketEntry lowerCaseAddress answer gmEthInfo = Ok (gmEth, gmEthData).
Proof. compute_eq. Qed.

(** X2 on the sample answer: [alice] keeps her weighted balance of 3
    tokens although she holds 9 now. *)
Lemma marketEntry_balances_witness :
  Incentives.userBalances gmEthData !! alice = Some (3 * 10 ^ 18).
Proof.
  destruct (marketEntry_balances lowerCaseAddress answer gmEthInfo gmEth gmEthData alice
              gmEth_entry) as [Hstat _].
  destruct Hstat as (lpStat & Hin & _ & Hlookup).
  - eexists. split; [by left|]. split; reflexivity.
  - apply list_elem_of_singleton in Hin as ->. exact Hlookup.
Defined.

(** X3 on the sample answer: the weighted supply of 4 tokens is taken,
    not the current supply of 10. *)
Lemma marketEntry_supply_witness :
  Incentives.marketTokensSupply gmEthData = 4 * 10 ^ 18.
Proof.
  destruct (marketEntry_supply lowerCaseAddress answer gmEthInfo gmEth gmEthData
              gmEth_entry) as (_ & _ & Hfirst).
  apply (Hfirst [] {| statMarketAddress := gmEth;
                      weightedAverageMarketTokensSupply := 4 * 10 ^ 18 |} []);
    [reflexivity | by intros other ?%elem_of_nil | reflexivity].
Defined.

(** X4 on the sample answer. *)
Lemma requestBalancesData_markets_witness :
  is_Some (({[ gmEth := gmEthData ]} : gmap string Incentives.MarketData) !! gmEth).
Proof.
  destruct (requestBalancesData_markets lowerCaseAddress answer {[ gmEth := gmEthData ]})
    as [Hkeys _]; [compute_eq|].
  apply Hkeys. exists gmEthInfo. split; [by left|reflexivity].
Defined.

(** X1 on the sample answer: it is accepted. *)
Lemma requestBalancesData_failures_witness :
  ∃ dataByMarket, requestBalancesData lowerCaseAddress answer = Ok dataByMarket.
Proof.
  destruct (requestBalancesData_failures lowerCaseAddress answer) as (_ & _ & Hruns).
  apply Hruns.
  - by vm_compute.
  - by vm_compute.
  - intros lpStat Hin. apply list_elem_of_singleton in Hin as ->. vm_compute. eauto.
  - intros info Hin.
    repeat (apply elem_of_cons in Hin as [->|Hin]; [vm_compute; eauto|]).
    by apply elem_of_nil in Hin.
  - intros marketInfo Hin. apply list_elem_of_singleton in Hin as ->. vm_compute. eauto.
Defined.

(** X5 on the sample answer and an allocation for another market. *)
Lemma missing_market_stops_main_witness :
  Incentives.main id IncentivesSamples.ARB 1 {[ gmEth := gmEthData ]} btcAllocation
    = (Err (Incentives.NoBalancesDataError gmBtc), None).
Proof.
  apply (missing_market_stops_main lowerCaseAddress id IncentivesSamples.ARB 1 answer
           {[ gmEth := gmEthData ]} btcAllocation gmBtc (1 * 10 ^ 18) []).
  - compute_eq.
  - reflexivity.
  - reflexivity.
  - intros marketInfo Hin. apply list_elem_of_singleton in Hin as ->. by vm_compute.
Defined.

End BalancesSpec.

(** ** More on the allocation computation *)

Module IncentivesMore.
Import Incentives.

Lemma distributeMarket_lookup entries R S acc acc' account :
  distributeMarket entries R S acc = Ok acc' →
  NoDup entries.*1 →
  (∀ b, (account, b) ∈ entries →
        acc' !! account = Some (default 0 (acc !! account) + Z.quot (b * R) S)) ∧
  (account ∉ entries.*1 → acc' !! account = acc !! account).
Proof.
  revert acc. induction entries as [|[u b] entries IH]; intros acc; csimpl.
  - intros [= <-] _. split; [by intros b ?%elem_of_nil|done].
  - unfold userRewardsOf, bn_div. destruct (decide (S = 0)); [done|].
    intros Hloop [Hfresh Hnodup]%NoDup_cons.
    destruct (IH _ Hloop Hnodup) as [IHin IHout].
    assert (∀ b', (u, b') ∉ entries) as Hu.
    { intros b' Hin. apply Hfresh, list_elem_of_fmap. by exists (u, b'). }
    split.
    + intros b' [[= -> ->]|Hin]%elem_of_cons.
      * rewrite (IHout Hfresh). unfold creditUser. by rewrite lookup_insert_eq.
      * assert (account ≠ u) as Hne by (intros ->; by destruct (Hu b')).
        rewrite (IHin _ Hin). unfold creditUser. by rewrite lookup_insert_ne.
    + intros Hout. apply not_elem_of_cons in Hout as [Hne Hout].
      rewrite (IHout Hout). unfold creditUser. by rewrite lookup_insert_ne.
Qed.

(** X6. What a market adds: processing a market credits every holder of
    the market with the quotient of its balance times the reward of the
    market by the supply, on top of what the account had from earlier
    markets, and leaves every other account as it was. *)
Theorem processMarket_credits bd market R data acc acc' account :
  bd !! market = Some data →
  processMarket bd market R acc = Ok acc' →
  (∀ balance, userBalances data !! account = Some balance →
     acc' !! account
       = Some (default 0 (acc !! account)
               + Z.quot (balance * R) (marketTokensSupply data))) ∧
  (userBalances data !! account = None → acc' !! account = acc !! account).
Proof.
  intros Hdata. unfold processMarket. rewrite Hdata.
  destruct (balancesMismatch _ _); [done|]. intros Hloop.
  destruct (distributeMarket_lookup _ _ _ _ _ account Hloop (NoDup_fst_map_to_list _))
    as [Hin Hout].
  split.
  - intros balance Hb. apply Hin. by apply elem_of_map_to_list.
  - intros Hnone. apply Hout. intros ([a b] & -> & Hentry)%list_elem_of_fmap.
    apply elem_of_map_to_list in Hentry. simpl in Hnone. congruence.
Qed.

Lemma processMarket_ok_inv bd market R acc acc' :
  processMarket bd market R acc = Ok acc' →
  ∃ data, bd !! market = Some data ∧
          Z.abs (userBalancesSum (userBalances data) - marketTokensSupply data) ≤ 10 ^ 18 ∧
          (marketTokensSupply data ≠ 0 ∨ userBalances data = ∅).
Proof.
  unfold processMarket. destruct (bd !! market) as [data|]; [|done].
  destruct (balancesMismatch _ _) eqn:Hmis; [done|].
  intros Hloop. exists data. split; [done|]. split.
  - destruct (decide (Z.abs (userBalancesSum (userBalances data) - marketTokensSupply data)
                      > 10 ^ 18)) as [Hgt|]; [|lia].
    apply IncentivesSpec.balancesMismatch_spec in Hgt. congruence.
  - destruct (map_to_list (userBalances data)) as [|[u b] entries] eqn:Hentries.
    + right. by apply map_to_list_empty_iff.
    + left. simpl in Hloop. unfold userRewardsOf, bn_div in Hloop.
      by destruct (decide (marketTokensSupply data = 0)).
Qed.

Lemma processMarkets_ok_inv bd markets acc U market R :
  processMarkets bd markets acc = Ok U →
  (market, R) ∈ markets →
  ∃ data, bd !! market = Some data ∧
          Z.abs (userBalancesSum (userBalances data) - marketTokensSupply data) ≤ 10 ^ 18 ∧
          (marketTokensSupply data ≠ 0 ∨ userBalances data = ∅).
Proof.
  revert acc. induction markets as [|[m' R'] markets IH]; intros acc; simpl.
  - by intros _ ?%elem_of_nil.
  - destruct (processMarket bd m' R' acc) as [acc'|e] eqn:Hstep; [|done].
    intros Hloop [[= -> ->]|Hin]%elem_of_cons; [by eapply processMarket_ok_inv|].
    by eapply IH.
Qed.

Lemma sumValues_subseteq (small big : gmap string Z) :
  small ⊆ big → map_Forall (λ _ v, 0 ≤ v) big → sumValues small ≤ sumValues big.
Proof.
  revert big. induction small as [|k v small Hfresh _ IH] using map_first_key_ind;
    intros big Hsub Hnonneg.
  - rewrite IncentivesSpec.sumValues_empty. unfold sumValues.
    apply bn_sum_nonneg, Forall_fmap, Forall_forall.
    intros [a b] Hin%elem_of_map_to_list. exact (Hnonneg a b Hin).
  - assert (big !! k = Some v) as Hk.
    { eapply lookup_weaken; [apply lookup_insert_eq|done]. }
    rewrite (IncentivesSpec.sumValues_insert_fresh _ _ _ Hfresh).
    rewrite (IncentivesSpec.sumValues_delete big k v Hk).
    assert (sumValues small ≤ sumValues (delete k big)); [|lia].
    apply IH.
    + apply map_subseteq_spec. intros a b Hab.
      assert (a ≠ k) by congruence.
      rewrite lookup_delete_ne by done.
      eapply lookup_weaken; [|done]. by rewrite lookup_insert_ne.
    + intros a b Hab. apply lookup_delete_Some in Hab as [_ Hab]. by eapply Hnonneg.
Qed.

Lemma distributeMarket_nonneg entries R S acc acc' :
  0 ≤ S → 0 ≤ R → Forall (λ e : string * Z, 0 ≤ e.2) entries →
  map_Forall (λ _ v, 0 ≤ v) acc →
  distributeMarket entries R S acc = Ok acc' →
  map_Forall (λ _ v, 0 ≤ v) acc'.
Proof.
  intros HS HR Hentries. revert acc.
  induction Hentries as [|[u b] entries Hb _ IH]; intros acc Hacc; simpl.
  - by intros [= <-].
  - unfold userRewardsOf, bn_div. destruct (decide (S = 0)); [done|].
    apply IH. unfold creditUser. apply map_Forall_insert_2; [|done].
    assert (0 ≤ Z.quot (b * R) S).
    { apply Z.quot_pos; simpl in Hb; lia. }
    destruct (acc !! u) as [v|] eqn:Hu; simpl; [|lia].
    pose proof (Hacc u v Hu). simpl in *. lia.
Qed.

Lemma processMarkets_nonneg bd markets acc U :
  (∀ market data, bd !! market = Some data →
     0 ≤ marketTokensSupply data ∧ map_Forall (λ _ b, 0 ≤ b) (userBalances data)) →
  Forall (λ e : string * Z, 0 ≤ e.2) markets →
  map_Forall (λ _ v, 0 ≤ v) acc →
  processMarkets bd markets acc = Ok U →
  map_Forall (λ _ v, 0 ≤ v) U.
Proof.
  intros Hbd Hmarkets. revert acc.
  induction Hmarkets as [|[m R] markets HR _ IH]; intros acc Hacc; simpl.
  - by intros [= <-].
  - destruct (processMarket bd m R acc) as [acc'|e] eqn:Hstep; [|done].
    apply IH. unfold processMarket in Hstep.
    destruct (bd !! m) as [data|] eqn:Hdata; [|done].
    destruct (balancesMismatch _ _); [done|].
    destruct (Hbd _ _ Hdata) as [HS Hbalances].
    eapply distributeMarket_nonneg; [exact HS|exact HR| |exact Hacc|exact Hstep].
    apply Forall_forall. intros [a b] Hin%elem_of_map_to_list. exact (Hbalances a b Hin).
Qed.

(** The counters of the filtering loop, for entries with pairwise
    different accounts that are not yet in [jsonResult]. *)
Lemma filterLoop_counters total st (l : list (string * Z)) st' :
  filterLoop total st l = Ok st' →
  NoDup l.*1 →
  (∀ a, a ∈ l.*1 → jsonResult st !! a = None) →
  (usersBelowThreshold st' + eligibleUsers st'
     = usersBelowThreshold st + eligibleUsers st + length l)%nat ∧
  (size (jsonResult st') + eligibleUsers st
     = size (jsonResult st) + eligibleUsers st')%nat.
Proof.
  revert st. induction l as [|[a r] l IH]; intros st; csimpl.
  - intros [= <-] _ _. lia.
  - destruct (filterStep total st (a, r)) as [st1|e] eqn:Hstep; [|done].
    intros Hloop [Hfresh Hnodup]%NoDup_cons Hnew.
    assert (jsonResult st !! a = None) as Ha by (apply Hnew; by left).
    unfold filterStep in Hstep.
    case_bool_decide.
    + injection Hstep as <-.
      destruct (IH _ Hloop Hnodup) as [H1 H2]; simpl in *; [|lia].
      intros x Hx. apply Hnew. by right.
    + destruct (bn_div _ _); [|done]. injection Hstep as <-.
      destruct (IH _ Hloop Hnodup) as [H1 H2]; simpl in *.
      * intros x Hx. rewrite lookup_insert_ne by (intros ->; done).
        apply Hnew. by right.
      * rewrite map_size_insert_None in H2 by done. lia.
Qed.

Section MainMore.

Context (overrideReceivers : gmap string Z → gmap string Z).
Context (arbToken : string) (STIP_LP_DISTRIBUTION_TYPE_ID : Z).

Local Abbreviation run := (main overrideReceivers arbToken STIP_LP_DISTRIBUTION_TYPE_ID).

(** X7. What a successful run needed: the allocation is active, every
    market of the allocation has balances data whose sum is within 10^18
    of the supply, with a non-zero supply unless nobody holds the market,
    and the sum of all rewards is within the total; and it wrote a
    file. *)
Theorem main_success_requirements bd alloc :
  (run bd alloc).1 = Ok () →
  isActive alloc = true ∧
  (∀ market R, (market, R) ∈ rewardsPerMarket alloc →
     ∃ data, bd !! market = Some data ∧
             Z.abs (userBalancesSum (userBalances data) - marketTokensSupply data)
               ≤ 10 ^ 18 ∧
             (marketTokensSupply data ≠ 0 ∨ userBalances data = ∅)) ∧
  (∃ U, processMarkets bd (rewardsPerMarket alloc) ∅ = Ok U ∧
        sumValues U ≤ totalRewards alloc) ∧
  is_Some (run bd alloc).2.
Proof.
  unfold main. destruct (isActive alloc); [|done]. simpl.
  destruct (processMarkets _ _ _) as [U|e] eqn:Hloop; [|done].
  destruct (filterRewards _ U) as [st|e] eqn:Hfilter; [|done].
  case_bool_decide as Hover; [done|]. intros _.
  split; [done|]. split; [|split; [|by eexists]].
  - intros market R Hin. by eapply processMarkets_ok_inv.
  - exists U. split; [done|].
    rewrite <- (IncentivesSpec.filterRewards_total _ _ _ Hfilter). lia.
Qed.

(** X8. No more than the allocation goes out: for non-negative supplies,
    balances and market rewards, the amounts of [jsonResult], from which
    the file of a successful run is made, add up to at most the total
    allocated reward. *)
Theorem payout_within_allocation bd alloc d :
  (∀ market data, bd !! market = Some data →
     0 ≤ marketTokensSupply data ∧ map_Forall (λ _ b, 0 ≤ b) (userBalances data)) →
  Forall (λ e : string * Z, 0 ≤ e.2) (rewardsPerMarket alloc) →
  (run bd alloc).2 = Some d →
  ∃ U st, processMarkets bd (rewardsPerMarket alloc) ∅ = Ok U ∧
          filterRewards (totalRewards alloc) U = Ok st ∧
          amounts d = overrideReceivers (jsonResult st) ∧
          sumValues (jsonResult st) ≤ sumValues U ∧
          sumValues U ≤ totalRewards alloc.
Proof.
  intros Hbd Hrewards. unfold main. destruct (negb (isActive alloc)); [done|].
  destruct (processMarkets _ _ _) as [U|e] eqn:Hloop; [|done].
  destruct (filterRewards _ U) as [st|e] eqn:Hfilter; [|done].
  case_bool_decide as Hover; [done|]. simpl. intros [= <-].
  exists U, st. repeat split; try done.
  - apply sumValues_subseteq.
    + apply map_subseteq_spec. intros a r Har.
      by apply (IncentivesSpec.filterRewards_lookup _ _ _ _ _ Hfilter) in Har as [? _].
    + eapply processMarkets_nonneg; [exact Hbd|exact Hrewards| |exact Hloop].
      by intros a v ?.
  - rewrite <- (IncentivesSpec.filterRewards_total _ _ _ Hfilter). lia.
Qed.

(** X10. A market without supply: when its turn comes first, a market
    of the allocation whose supply is zero and whose balances, not all
    absent, stay within the tolerance stops the run with the division by
    zero of the first reward, and no file is written. *)
Theorem zero_supply_stops_main bd alloc market R rest data :
  isActive alloc = true →
  rewardsPerMarket alloc = (market, R) :: rest →
  bd !! market = Some data →
  marketTokensSupply data = 0 →
  userBalances data ≠ ∅ →
  Z.abs (userBalancesSum (userBalances data)) ≤ 10 ^ 18 →
  run bd alloc = (Err DivisionByZeroError, None).
Proof.
  intros Hactive Hmarkets Hdata Hzero Hholders Htol.
  unfold main. rewrite Hactive, Hmarkets. simpl.
  unfold processMarket. rewrite Hdata, Hzero.
  destruct (balancesMismatch _ _) eqn:Hmis.
  { apply IncentivesSpec.balancesMismatch_spec in Hmis. rewrite Z.sub_0_r in Hmis. lia. }
  destruct (map_to_list (userBalances data)) as [|[u b] entries] eqn:Hentries.
  { by apply map_to_list_empty_iff in Hentries. }
  done.
Qed.

End MainMore.

(** X9. The counters of the filter: when the filtering loop has run, the
    accounts counted as eligible are as many as the entries of
    [jsonResult], and eligible and below-threshold accounts together are
    as many as the accounts with a reward. *)
Theorem filterRewards_counters total (U : gmap string Z) st :
  filterRewards total U = Ok st →
  eligibleUsers st = size (jsonResult st) ∧
  (usersBelowThreshold st + eligibleUsers st)%nat = size U.
Proof.
  unfold filterRewards. intros Hloop.
  destruct (filterLoop_counters _ _ _ _ Hloop) as [Hall Hsize].
  - rewrite IncentivesSpec.sortEntries_perm. apply NoDup_fst_map_to_list.
  - intros a _. apply lookup_empty.
  - simpl in *. rewrite map_size_empty in Hsize.
    split; [lia|].
    rewrite Hall. rewrite IncentivesSpec.sortEntries_perm. apply length_map_to_list.
Qed.

Import IncentivesSamples.

(** X6 on the market shared three to one, for a reward of 10: [accountA]
    is credited 7 on top of the 5 it had. *)
Lemma processMarket_credits_witness :
  processMarket balancedBalances marketM1 10 {[ accountA := 5 ]}
    = Ok {[ accountA := 12; accountB := 2 ]} ∧
  ({[ accountA := 12; accountB := 2 ]} : gmap string Z) !! accountA = Some (5 + 7).
Proof.
  assert (processMarket balancedBalances marketM1 10 {[ accountA := 5 ]}
          = Ok {[ accountA := 12; accountB := 2 ]}) as Hrun by compute_eq.
  split; [exact Hrun|].
  destruct (processMarket_credits balancedBalances marketM1 10 balanced
              {[ accountA := 5 ]} {[ accountA := 12; accountB := 2 ]} accountA
              eq_refl Hrun) as [Hin _].
  apply (Hin (3 * 10 ^ 18)). reflexivity.
Defined.

(** X7 on the two markets. *)
Lemma main_success_requirements_witness :
  isActive twoMarketsAllocation = true ∧
  is_Some (main id ARB 1 twoMarketsBalances twoMarketsAllocation).2.
Proof.
  destruct (main_success_requirements id ARB 1 twoMarketsBalances twoMarketsAllocation)
    as (Hactive & _ & _ & Hfile); [by vm_compute|].
  split; [exact Hactive | exact Hfile].
Defined.

(** X9 on two rewards, one on each side of the threshold. *)
Lemma filterRewards_counters_witness :
  let st := {| userTotalRewards := 55 * 10 ^ 16;
               jsonResult := {[ accountA := 5 * 10 ^ 17 ]};
               usersBelowThreshold := 1; eligibleUsers := 1 |} in
  eligibleUsers st = size (jsonResult st) ∧
  (usersBelowThreshold st + eligibleUsers st)%nat
    = size ({[ accountA := 5 * 10 ^ 17; accountB := 5 * 10 ^ 16 ]} : gmap string Z).
Proof.
  intros st.
  apply (filterRewards_counters (5 * 10 ^ 17)
           {[ accountA := 5 * 10 ^ 17; accountB := 5 * 10 ^ 16 ]} st).
  compute_eq.
Defined.

(** X8 on the two markets: 5 tokens are allocated and 5 go out. *)
Lemma payout_within_allocation_witness :
  ∃ U st, processMarkets twoMarketsBalances (rewardsPerMarket twoMarketsAllocation) ∅
            = Ok U ∧
          filterRewards (totalRewards twoMarketsAllocation) U = Ok st ∧
          sumValues (jsonResult st) ≤ totalRewards twoMarketsAllocation.
Proof.
  destruct (payout_within_allocation id ARB 1 twoMarketsBalances twoMarketsAllocation
              {| token := ARB;
                 amounts := {[ accountA := 2 * 10 ^ 18; accountB := 3 * 10 ^ 18 ]};
                 distributionTypeId := 1 |})
    as (U & st & HU & Hst & _ & Hpaid & Hall).
  - intros market data Hlookup. unfold twoMarketsBalances in Hlookup.
    apply lookup_insert_Some in Hlookup as [[_ <-]|[_ Hlookup]].
    + split; [by vm_compute|]. apply map_Forall_singleton. by vm_compute.
    + apply lookup_singleton_Some in Hlookup as [_ <-].
      split; [by vm_compute|]. apply map_Forall_singleton. by vm_compute.
  - repeat constructor; by vm_compute.
  - compute_eq.
  - exists U, st. split; [exact HU|]. split; [exact Hst|]. lia.
Defined.

(** X10 on a market of one holder and no supply. *)
Lemma zero_supply_stops_main_witness :
  main id ARB 1
    {[ marketM1 := {| marketTokensSupply := 0; userBalances := {[ accountA := 1 ]} |} ]}
    divergingAllocation
  = (Err DivisionByZeroError, None).
Proof.
  apply (zero_supply_stops_main id ARB 1 _ divergingAllocation marketM1 (1 * 10 ^ 18) []
           {| marketTokensSupply := 0; userBalances := {[ accountA := 1 ]} |}).
  - reflexivity.
  - reflexivity.
  - apply lookup_singleton_eq.
  - reflexivity.
  - apply insert_non_empty.
  - by vm_compute.
Defined.

End IncentivesMore.

(** ** More on the batch submitter *)

Module BatchSendMore.
Import BatchSend.

Section RunMore.

Context {Chain : Type} `{!BatchSenderChain Chain}.
Context (getDistributionTypeName : Z → option string).

Local Abbreviation run := (main getDistributionTypeName).
Local Abbreviation readFile := (readDistributionFile getDistributionTypeName).

(** X11. Read-only mode: unless [WRITE] is exactly [true], a run leaves
    the world as it found it, whatever the other variables: no call on
    the chain and no ledger file written. *)
Theorem read_only_leaves_world env (w : World Chain) :
  WRITE env ≠ Some "true"%string → (run env w).1 = w.
Proof.
  intros Hwrite.
  destruct (BatchSendSpec.main_cases getDistributionTypeName env w)
    as [(e & -> & _)|[[-> _]|(? & ? & ? & _ & Hsend & _)]]; [done|done|].
  unfold shouldSendTxn in Hsend. by apply bool_decide_eq_true in Hsend.
Qed.


(** X13. Read-only runs are checked as well: without [WRITE] a run
    succeeds exactly when the file is valid, the ledger check passes and
    the network is supported; no key is needed. *)
Theorem read_only_outcome env (w : World Chain) :
  shouldSendTxn env = false →
  (run env w).2 = Ok () ↔
  networkName env = "arbitrum"%string ∧
  ∃ data entries name,
    readFile env w = Ok (data, entries, name) ∧
    (alreadySent (readMigrations w) (id data) = false ∨
     truthy (SKIP_MIGRATION_VALIDATION env) = true).
Proof.
  intros Hro. unfold main, getValues. rewrite Hro. simpl.
  destruct (readFile env w) as [[[data entries] name]|e] eqn:Hread.
  2: { split; [done|]. by intros (_ & ? & ? & ? & ? & _). }
  destruct (alreadySent _ _) eqn:Hsent, (truthy (SKIP_MIGRATION_VALIDATION env)) eqn:Hskip;
    simpl.
  2: { split; [done|]. intros (_ & ? & ? & ? & [= <- <- <-] & [?|?]); congruence. }
  all: destruct (String.eqb (networkName env) "arbitrum") eqn:Hnet;
    [apply String.eqb_eq in Hnet|apply String.eqb_neq in Hnet]; simpl.
  all: split; [|by intros [? _]]; try done.
  all: intros _; split; [done|]; exists data, entries, name; split; [done|]; auto.
Qed.

Lemma main_write env (w : World Chain) data entries name :
  readFile env w = Ok (data, entries, name) →
  shouldSendTxn env = true →
  truthy (BATCH_SENDER_KEY env) = true →
  networkName env = "arbitrum"%string →
  alreadySent (readMigrations w) (id data) = false ∨
    truthy (SKIP_MIGRATION_VALIDATION env) = true →
  run env w = sendDistribution env data (readMigrations w) entries.*1 entries.*2 w.
Proof.
  intros Hread Hsend Hkey Hnet Hcheck. unfold main. rewrite Hread.
  assert (alreadySent (readMigrations w) (id data)
          && negb (truthy (SKIP_MIGRATION_VALIDATION env)) = false) as ->.
  { destruct Hcheck as [-> | ->]; [done|]. by rewrite andb_false_r. }
  rewrite Hsend, Hkey. unfold getValues. by rewrite Hnet.
Qed.

Lemma main_validation_error env (w w' : World Chain) message :
  run env w = (w', Err (InputValidationError message)) →
  readFile env w = Err (InputValidationError message).
Proof.
  unfold main.
  destruct (readFile env w) as [[[data entries] name]|e]; [|by intros [= _ ->]].
  destruct (alreadySent _ _ && _); [done|].
  destruct (shouldSendTxn env && _); [done|].
  unfold getValues. destruct (String.eqb _ _); [|done].
  destruct (shouldSendTxn env); [|done].
  intros Hrun. apply (f_equal snd) in Hrun.
  apply BatchSendSpec.sendDistribution_error in Hrun
    as [?|(? & ? & ?)]; done.
Qed.

Lemma readFile_refuses env (w : World Chain) fileName data :
  FILENAME env = Some fileName → fileName ≠ ""%string →
  distributionFile w fileName = Some data →
  (∃ message, readFile env w = Err (InputValidationError message)) ↔
  token data = ""%string ∨ amounts data = None ∨ distributionTypeId data = 0 ∨
  getDistributionTypeName (distributionTypeId data) = None ∨
  getDistributionTypeName (distributionTypeId data) = Some ""%string ∨
  id data = 0.
Proof.
  intros Hname Hnonempty Hfile. unfold readDistributionFile.
  rewrite Hname. simpl. apply String.eqb_neq in Hnonempty. rewrite Hnonempty. simpl.
  rewrite Hfile.
  destruct (String.eqb_spec (token data) ""); [split; eauto|].
  destruct (amounts data) as [entries|] eqn:Hamounts; [|split; eauto].
  destruct (Z.eqb_spec (distributionTypeId data) 0); [split; eauto 6|].
  destruct (getDistributionTypeName _) as [typeName|] eqn:Htype; [|split; eauto 7].
  destruct (String.eqb_spec typeName ""); [subst; split; eauto 8|].
  destruct (Z.eqb_spec (id data) 0); [split; eauto 9|].
  split; [by intros [? ?]|]. intros [?|[?|[?|[?|[?|?]]]]]; congruence.
Qed.

(** X14. What makes a file invalid: a file that can be read is refused
    with [InputValidationError] exactly when its token is empty, its
    amounts are missing, its distribution type is zero or has no name, or
    its id is zero; the run then stops with the world untouched, whatever
    the ledger holds. *)
Theorem invalid_file_refused env (w : World Chain) fileName data :
  FILENAME env = Some fileName → fileName ≠ ""%string →
  distributionFile w fileName = Some data →
  (∃ message, (run env w).2 = Err (InputValidationError message)) ↔
  token data = ""%string ∨ amounts data = None ∨ distributionTypeId data = 0 ∨
  getDistributionTypeName (distributionTypeId data) = None ∨
  getDistributionTypeName (distributionTypeId data) = Some ""%string ∨
  id data = 0.
Proof.
  intros Hname Hnonempty Hfile.
  rewrite <- (readFile_refuses env w fileName data) by done. split.
  - intros [message Hrun]. exists message.
    apply (main_validation_error env w (run env w).1).
    rewrite <- Hrun. by destruct (run env w).
  - intros [message Hread]. exists message. unfold main. by rewrite Hread.
Qed.

(** X15. A file without recipients in write mode: with an allowance that
    is not negative the run succeeds, makes one call, the reading of the
    allowance, sends nothing, leaves the chain as it was and writes the
    ledger file with the distribution id set to the time of the clock in
    seconds. *)
Theorem empty_distribution_marked env (w : World Chain) data name :
  readFile env w = Ok (data, [], name) →
  shouldSendTxn env = true →
  truthy (BATCH_SENDER_KEY env) = true →
  networkName env = "arbitrum"%string →
  alreadySent (readMigrations w) (id data) = false ∨
    truthy (SKIP_MIGRATION_VALIDATION env) = true →
  0 ≤ allowance (token data) (chain w) →
  (run env w).2 = Ok () ∧
  log (run env w).1 = log w ++ [EvAllowance (chain w) (token data)] ∧
  chain (run env w).1 = chain w ∧
  migrationsFile (run env w).1
    = Some (<[id data := clock w `div` 1000]> (readMigrations w)) ∧
  readMigrations (run env w).1 !! id data = Some (clock w `div` 1000).
Proof.
  intros Hread Hsend Hkey Hnet Hcheck Hallowance.
  rewrite (main_write env w data [] name) by done.
  unfold sendDistribution, ensureAllowance. simpl.
  rewrite bool_decide_eq_false_2 by (unfold bn_sum; simpl; lia). simpl.
  repeat split. unfold readMigrations at 1. simpl. apply lookup_insert_eq.
Qed.

(** X16. No batch is skipped and none resumed: whatever the ledger and the
    chain hold, the batch calls of a run are the first batches of the
    distribution, in order, starting with the first one; a successful run
    in write mode has called them all, one for every 150 entries. *)
Theorem batch_calls_prefix env (w : World Chain) data entries name :
  readFile env w = Ok (data, entries, name) →
  ∃ evs remaining,
    log (run env w).1 = log w ++ evs ∧
    omap batchOf evs ++ remaining = mainBatches 150 entries.*1 entries.*2 ∧
    ((run env w).2 = Ok () → shouldSendTxn env = true → remaining = []) ∧
    length (mainBatches 150 entries.*1 entries.*2) = ((length entries + 149) / 150)%nat.
Proof.
  intros Hread.
  assert (length (mainBatches 150 entries.*1 entries.*2)
          = ((length entries + 149) / 150)%nat) as Hcount.
  { unfold mainBatches. rewrite BatchSendSpec.range_from_zero by lia.
    rewrite !length_fmap, length_seq. f_equal. lia. }
  destruct (BatchSendSpec.main_cases getDistributionTypeName env w)
    as [(e & Hrun & _)|[[Hrun Hro]|(data' & entries' & name' & Hread' & _ & _ & _ & _ & Hrun)]].
  - exists [], (mainBatches 150 entries.*1 entries.*2). rewrite Hrun. simpl.
    by rewrite app_nil_r.
  - exists [], (mainBatches 150 entries.*1 entries.*2). rewrite Hrun. simpl.
    rewrite app_nil_r. repeat split; try done. congruence.
  - assert (data' = data) as -> by congruence.
    assert (entries' = entries) as -> by congruence.
    destruct (BatchSendSpec.sendDistribution_spec env data (readMigrations w)
                entries.*1 entries.*2 w) as (batchEvs & Hlog & _ & _ & _ & Hres).
    rewrite <- Hrun in Hlog, Hres.
    assert (∀ evs : list (Event Chain),
              omap batchOf
                ((if bool_decide (allowance (token data) (chain w) < bn_sum entries.*2)
                  then [EvApprove (chain w) (token data) (bn_sum entries.*2)] else [])
                 ++ evs)
              = omap batchOf evs) as Hskip.
    { intros evs. by case_bool_decide. }
    eexists. destruct ((run env w).2) as [[]|e].
    + exists []. split; [exact Hlog|]. csimpl. rewrite Hskip, app_nil_r.
      destruct Hres as (_ & Hbatches & _).
      split; [by apply BatchSendSpec.batchOf_omap|done].
    + destruct Hres as [_ [(_ & -> & _)|(evs' & ev & visited & from & rest & -> & Hrange
                                          & Hvisited & Hev & _)]].
      * exists (mainBatches 150 entries.*1 entries.*2).
        split; [exact Hlog|]. csimpl. rewrite Hskip. done.
      * exists (batchAt 150 entries.*1 entries.*2 <$> rest).
        split; [exact Hlog|]. split; [|split; [done|exact Hcount]].
        csimpl. rewrite Hskip.
        rewrite omap_app. csimpl. rewrite Hev. csimpl.
        rewrite (BatchSendSpec.batchOf_omap evs' (batchAt 150 entries.*1 entries.*2 <$> visited))
          by (rewrite Hvisited, <- list_fmap_compose; reflexivity).
        unfold mainBatches. rewrite Hrange, fmap_app, <- app_assoc. reflexivity.
Qed.


(** X18. [DRY_RUN] is read for its truthiness: set to any non-empty
    string, [false] and [0] included, no run sends a batch transaction;
    unset or empty, no run simulates a batch. *)
Theorem dry_run_flag env (w : World Chain) evs ev :
  log (run env w).1 = log w ++ evs → ev ∈ evs → isBatchEvent ev = true →
  (∀ value, DRY_RUN env = Some value → value ≠ ""%string → isBatchTransaction ev = false) ∧
  (DRY_RUN env = None ∨ DRY_RUN env = Some ""%string → isBatchTransaction ev = true).
Proof.
  intros Hlog Hin Hbatch.
  assert (isBatchTransaction ev = negb (truthy (DRY_RUN env))) as ->.
  { destruct (BatchSendSpec.main_cases getDistributionTypeName env w)
      as [(e & Hrun & _)|[[Hrun _]|(data & entries & name & _ & _ & _ & _ & _ & Hrun)]].
    1, 2: rewrite Hrun in Hlog; simpl in Hlog;
          rewrite <- (app_nil_r (log w)) in Hlog at 1;
          apply app_inv_head in Hlog as <-; by apply elem_of_nil in Hin.
    destruct (BatchSendSpec.sendDistribution_spec env data (readMigrations w)
                entries.*1 entries.*2 w) as (batchEvs & Hlog' & _ & _ & Hkind & _).
    rewrite <- Hrun, Hlog in Hlog'. apply app_inv_head in Hlog' as ->.
    eapply (BatchSendSpec.batch_event_of_calls ev) in Hin; [|by case_bool_decide; eauto|done].
    rewrite Forall_forall in Hkind. by apply Hkind. }
  split.
  - intros value -> Hvalue. simpl. apply String.eqb_neq in Hvalue. by rewrite Hvalue.
  - by intros [-> | ->].
Qed.

End RunMore.

(** *** [getBatchSenderCalldata] *)

Lemma foldl_insert_size {K V} `{Countable K} {A} (key : A → K) (val : A → V)
    (l : list A) (m : gmap K V) :
  NoDup (key <$> l) → (∀ x, x ∈ l → m !! key x = None) →
  size (foldl (λ acc x, <[key x := val x]> acc) m l) = (size m + length l)%nat.
Proof.
  revert m. induction l as [|a l IH]; intros m Hnodup Hfresh; csimpl; [lia|].
  apply NoDup_cons in Hnodup as [Hnotin Hnodup].
  rewrite IH; [|done|].
  - rewrite map_size_insert_None by (apply Hfresh; by left). lia.
  - intros x Hin. rewrite lookup_insert_ne.
    + apply Hfresh. by right.
    + intros Hkey. apply Hnotin. rewrite Hkey. apply list_elem_of_fmap. eauto.
Qed.

(** X19. The keys of [getBatchSenderCalldata], for a positive batch size:
    one key for every started batch and no other, [from] being a multiple
    of the batch size below the number of amounts and the second
    component the index of the last amount of the batch; every index of
    an amount lies between the two components of a key. *)
Theorem calldata_keys encode tokenAddress recipients (amounts : list Z) typeId
    (batchSize : nat) :
  (0 < batchSize)%nat →
  let calldata :=
    getBatchSenderCalldata encode tokenAddress recipients amounts typeId batchSize in
  size calldata = ((length amounts + batchSize - 1) / batchSize)%nat ∧
  (∀ from last,
     is_Some (calldata !! (from, last)) ↔
     ∃ i, from = (i * batchSize)%nat ∧ (from < length amounts)%nat ∧
          last = Z.of_nat (Nat.min (from + batchSize) (length amounts)) - 1) ∧
  (∀ j, (j < length amounts)%nat →
     ∃ from last, is_Some (calldata !! (from, last)) ∧ (from ≤ j)%nat ∧ Z.of_nat j ≤ last).
Proof.
  intros Hsize calldata.
  pose proof (Nat.div_mod_eq (length amounts + batchSize - 1) batchSize) as Hdiv.
  pose proof (Nat.mod_upper_bound (length amounts + batchSize - 1) batchSize) as Hmod.
  set (count := ((length amounts + batchSize - 1) / batchSize)%nat) in *.
  assert (∀ i, (i < count)%nat ↔ (i * batchSize < length amounts)%nat) as Hcount
    by (intros i; nia).
  assert (Hkeys : ∀ from last,
     is_Some (calldata !! (from, last)) ↔
     ∃ i, from = (i * batchSize)%nat ∧ (from < length amounts)%nat ∧
          last = Z.of_nat (Nat.min (from + batchSize) (length amounts)) - 1).
  { intros from last. subst calldata. unfold getBatchSenderCalldata.
    rewrite (BatchSendSpec.foldl_insert_is_Some
               (λ from, (from, Z.of_nat (Nat.min (from + batchSize) (length amounts)) - 1))
               (λ from, encode tokenAddress (slice from (from + batchSize) recipients)
                          (slice from (from + batchSize) amounts) typeId)).
    rewrite lookup_empty, BatchSendSpec.range_from_zero by done. split.
    - intros [[? ?]|(x & Hin & [= <- <-])]; [done|].
      apply list_elem_of_fmap in Hin as (i & -> & Hi%elem_of_seq).
      exists i. split; [done|]. split; [|done]. apply Hcount. fold count in Hi. lia.
    - intros (i & -> & Hi & ->). right. exists (i * batchSize)%nat. split; [|done].
      apply list_elem_of_fmap. exists i. split; [done|].
      apply elem_of_seq. fold count. apply Hcount in Hi. lia. }
  split; [|split; [exact Hkeys|]].
  - subst calldata. unfold getBatchSenderCalldata.
    rewrite (foldl_insert_size
               (λ from, (from, Z.of_nat (Nat.min (from + batchSize) (length amounts)) - 1))
               (λ from, encode tokenAddress (slice from (from + batchSize) recipients)
                          (slice from (from + batchSize) amounts) typeId)).
    + rewrite map_size_empty, BatchSendSpec.range_from_zero by done.
      by rewrite length_fmap, length_seq.
    + rewrite BatchSendSpec.range_from_zero, <- list_fmap_compose by done.
      apply NoDup_fmap_2; [|apply NoDup_seq].
      intros a b [= Hab _]. nia.
    + intros x _. apply lookup_empty.
  - intros j Hj.
    pose proof (Nat.div_mod_eq j batchSize) as Hj_div.
    pose proof (Nat.mod_upper_bound j batchSize) as Hj_mod.
    exists (j / batchSize * batchSize)%nat,
      (Z.of_nat (Nat.min (j / batchSize * batchSize + batchSize) (length amounts)) - 1).
    split; [|lia].
    apply Hkeys. exists (j / batchSize)%nat. split; [done|]. split; [nia|done].
Qed.

Lemma range_zero_step (n : nat) : range 0 n 0 = replicate n 0%nat.
Proof.
  unfold range. rewrite Nat.sub_0_r, Nat.add_sub, Nat.div_1_r.
  assert (∀ start, (λ i, (0 + i * 0)%nat) <$> seq start n = replicate n 0%nat) as Hall.
  { induction n as [|n IH]; intros start; csimpl; [done|].
    by rewrite IH, Nat.mul_0_r. }
  apply Hall.
Qed.

(** X20. [getBatchSenderCalldata] with a batch size of zero: lodash's
    [range] then yields [0] once per amount, every pass encodes two empty
    slices under the key [0--1], and the object that comes back holds
    that one key, no amount encoded; without amounts it is empty,
    whatever the batch size. *)
Theorem calldata_zero_batch_size encode tokenAddress recipients (amounts : list Z) typeId :
  (amounts ≠ [] →
   getBatchSenderCalldata encode tokenAddress recipients amounts typeId 0
   = {[ (0%nat, -1) := encode tokenAddress [] [] typeId ]}) ∧
  (∀ batchSize,
     getBatchSenderCalldata encode tokenAddress recipients [] typeId batchSize = ∅).
Proof.
  split.
  - intros Hamounts. unfold getBatchSenderCalldata. rewrite range_zero_step.
    destruct amounts as [|amount amounts]; [done|].
    change (length (amount :: amounts)) with (S (length amounts)).
    generalize (length amounts) at 2. intros n. csimpl.
    unfold slice at 1 2. csimpl. rewrite insert_empty.
    induction n as [|n IH]; csimpl; [done|].
    unfold slice at 1 2. csimpl. rewrite insert_singleton_eq. exact IH.
  - intros batchSize. unfold getBatchSenderCalldata.
    change (length (@nil Z)) with 0%nat.
    destruct batchSize as [|batchSize]; [by rewrite range_zero_step|].
    rewrite BatchSendSpec.range_from_zero by lia.
    replace (0 + S batchSize - 1)%nat with batchSize by lia.
    by rewrite Nat.div_small by lia.
Qed.

(** *** The properties on sample runs *)

Import BatchSendSamples.

(** X11 on [WRITE=1]: nothing is called and nothing written. *)
Lemma read_only_leaves_world_witness :
  (@main Z erc20 distributionTypeName readOnlyEnv (worldOf (unitDistribution 3) None 10)).1
  = worldOf (unitDistribution 3) None 10.
Proof.
  apply (@read_only_leaves_world Z erc20 distributionTypeName readOnlyEnv).
  simpl. discriminate.
Defined.

(** X13 on [WRITE=1] without a key: the run succeeds. *)
Lemma read_only_outcome_witness :
  (@main Z erc20 distributionTypeName readOnlyEnv (worldOf (unitDistribution 3) None 10)).2
  = Ok ().
Proof.
  apply (@read_only_outcome Z erc20 distributionTypeName readOnlyEnv); [reflexivity|].
  split; [reflexivity|].
  exists (unitDistribution 3), (unitEntries 3), "STIP LP"%string.
  split; [reflexivity|]. left. reflexivity.
Defined.

(** X14 on a file without an id. *)
Lemma invalid_file_refused_witness :
  ∃ message,
    (@main Z erc20 distributionTypeName liveEnv
       (worldOf unidentifiedDistribution None 10)).2 = Err (InputValidationError message).
Proof.
  apply (@invalid_file_refused Z erc20 distributionTypeName liveEnv
           (worldOf unidentifiedDistribution None 10) fileName unidentifiedDistribution).
  - reflexivity.
  - discriminate.
  - reflexivity.
  - do 5 right. reflexivity.
Defined.

(** X15 on a file without recipients and an allowance of zero. *)
Lemma empty_distribution_marked_witness :
  let r := @main Z erc20 distributionTypeName liveEnv (worldOf emptyDistribution None 0) in
  r.2 = Ok () ∧
  log r.1 = [EvAllowance 0 ARB] ∧
  migrationsFile r.1 = Some {[ 10 := 1697626800 ]}.
Proof.
  intros r.
  destruct (@empty_distribution_marked Z erc20 distributionTypeName liveEnv
              (worldOf emptyDistribution None 0) emptyDistribution "STIP LP"%string)
    as (Hok & Hlog & _ & Hfile & _).
  - reflexivity.
  - reflexivity.
  - reflexivity.
  - reflexivity.
  - left. reflexivity.
  - simpl. lia.
  - split; [exact Hok|]. split; [exact Hlog | exact Hfile].
Defined.

(** X16 on 151 recipients. *)
Lemma batch_calls_prefix_witness :
  let w := worldOf (unitDistribution 151) None 200 in
  ∃ evs remaining,
    log (@main Z erc20 distributionTypeName liveEnv w).1 = log w ++ evs ∧
    omap batchOf evs ++ remaining
      = mainBatches 150 (unitEntries 151).*1 (unitEntries 151).*2 ∧
    ((@main Z erc20 distributionTypeName liveEnv w).2 = Ok () →
     shouldSendTxn liveEnv = true → remaining = []) ∧
    length (mainBatches 150 (unitEntries 151).*1 (unitEntries 151).*2)
      = ((length (unitEntries 151) + 149) / 150)%nat.
Proof.
  intros w.
  apply (@batch_calls_prefix Z erc20 distributionTypeName liveEnv w
           (unitDistribution 151) (unitEntries 151) "STIP LP"%string).
  reflexivity.
Defined.


(** X18 on [DRY_RUN=false]: the one batch is simulated, not sent. *)
Lemma dry_run_flag_witness :
  let w := worldOf (unitDistribution 3) None 10 in
  let ev := EvCallStatic 10 0 3 (unitEntries 3).*1 (unitEntries 3).*2 in
  log (@main Z erc20 distributionTypeName dryRunFalseEnv w).1 = [EvAllowance 10 ARB; ev] ∧
  isBatchTransaction ev = false.
Proof.
  intros w ev. split; [reflexivity|].
  destruct (@dry_run_flag Z erc20 distributionTypeName dryRunFalseEnv w
              [EvAllowance 10 ARB; ev] ev) as [Hset _].
  - reflexivity.
  - by right; left.
  - reflexivity.
  - apply (Hset "false"%string); [reflexivity|discriminate].
Defined.

(** X19 on three amounts in batches of two. *)
Lemma calldata_keys_witness :
  size (getBatchSenderCalldata joinRecipients ARB
          [recipientName 0; recipientName 1; recipientName 2] [1; 2; 3] 1001 2) = 2%nat.
Proof.
  destruct (calldata_keys joinRecipients ARB
              [recipientName 0; recipientName 1; recipientName 2] [1; 2; 3] 1001 2)
    as (Hsize & _ & _); [lia|exact Hsize].
Defined.

End BatchSendMore.

(** ** The role table *)

Module RolesSpec.
Import Roles.

(** X21. The role table: the deployer is granted roles on [hardhat]
    only, the table of every other network being the same whoever
    deploys; and in a mainnet table the multisig account, and no other,
    holds [TIMELOCK_MULTISIG]. *)
Theorem roles_by_network (deployer networkName : string) :
  (networkName ≠ "hardhat"%string →
   ∀ deployer', rolesConfig deployer' networkName = rolesConfig deployer networkName) ∧
  (∀ entries entry, rolesConfig deployer "hardhat" = Some entries →
                    entry ∈ entries → account entry = deployer) ∧
  (∀ multisigAccount,
     (∃ entry, entry ∈ getMainnetRoles multisigAccount ∧
               account entry = multisigAccount ∧
               "TIMELOCK_MULTISIG"%string ∈ roles entry) ∧
     (∀ entry, entry ∈ getMainnetRoles multisigAccount →
               "TIMELOCK_MULTISIG"%string ∈ roles entry →
               account entry = multisigAccount)).
Proof.
  split; [|split].
  - intros Hnet deployer'. unfold rolesConfig, config. cbn [List.find fst].
    destruct (String.eqb_spec "hardhat" networkName) as [<-|?]; [done|]. reflexivity.
  - intros entries entry [= <-] Hin.
    apply list_elem_of_singleton in Hin as ->. reflexivity.
  - intros multisigAccount. split.
    + eexists {| account := multisigAccount; roles := _ |}.
      split; [do 5 right; left|]. split; [reflexivity|]. repeat constructor.
    + intros entry Hin Hrole. unfold getMainnetRoles in Hin.
      repeat (apply elem_of_cons in Hin as [->|Hin]); try reflexivity.
      all: try (by apply elem_of_nil in Hin).
      all: exfalso; apply list_elem_of_In in Hrole; simpl in Hrole;
           intuition discriminate.
Qed.

End RolesSpec.
